(** * ghcn-weatherstations: the .dly parser, season calendar, aggregator and
    metric cache of [app/ghcn_dly.py] and [app/cache.py], embedded in Rocq.

    Python [int] values are [Z]; Python [float] values are the kernel's IEEE-754
    binary64 floats ([PrimFloat.float]), the same format CPython uses; Python
    [str] values (the decoded lines of the .dly file) are [String.string];
    Python dicts are stdpp [gmap]s; raised exceptions are the [Raise] branch of
    a small exception monad [Exc]. *)

From Stdlib Require Import ZArith Floats Uint63 Ascii String.
From stdpp Require Import base gmap strings list fin_maps.

Open Scope Z_scope.

(* ------------------------------------------------------------------ *)
(** ** Exceptions *)

Inductive exn :=
  | ValueError          (* int() of a malformed field, unknown season *)
  | IllegalMonthError   (* calendar.monthrange with month outside 1..12 *)
  | IndexError          (* str indexing out of range *)
  | KeyError            (* dict lookup of a missing key *)
  | DbError.            (* any error raised by the database driver *)

Inductive Exc (A : Type) : Type :=
  | Ok (a : A)
  | Raise (e : exn).
Arguments Ok {A} a.
Arguments Raise {A} e.

Global Instance Exc_ret : MRet Exc := fun A a => Ok a.
Global Instance Exc_bind : MBind Exc :=
  fun A B (k : A -> Exc B) (m : Exc A) =>
    match m with Ok a => k a | Raise e => Raise e end.

(* ------------------------------------------------------------------ *)
(** ** Python's [int(str)] in base 10, on ASCII text

    CPython strips whitespace around the literal, accepts one optional sign,
    then a non-empty run of decimal digits in which single underscores may
    separate two digits; anything else raises [ValueError]. *)

Definition is_py_space (c : ascii) : bool :=
  let n := nat_of_ascii c in
  (((9 <=? n) && (n <=? 13)) || ((28 <=? n) && (n <=? 32)))%nat.

Definition is_digit (c : ascii) : bool :=
  let n := nat_of_ascii c in ((48 <=? n) && (n <=? 57))%nat.

Definition digit_val (c : ascii) : Z := Z.of_nat (nat_of_ascii c) - 48.

Fixpoint drop_spaces (l : list ascii) : list ascii :=
  match l with
  | c :: r => if is_py_space c then drop_spaces r else l
  | [] => []
  end.

Definition py_strip (l : list ascii) : list ascii :=
  rev (drop_spaces (rev (drop_spaces l))).

Fixpoint digits_acc (l : list ascii) (acc : Z) : option Z :=
  match l with
  | [] => Some acc
  | c :: r =>
      if is_digit c then digits_acc r (acc * 10 + digit_val c)
      else if ascii_dec c "_" then
        match r with
        | d :: r' => if is_digit d then digits_acc r' (acc * 10 + digit_val d) else None
        | [] => None
        end
      else None
  end.

Definition parse_unsigned (l : list ascii) : option Z :=
  match l with
  | d :: r => if is_digit d then digits_acc r (digit_val d) else None
  | [] => None
  end.

Definition parse_int (s : string) : option Z :=
  match py_strip (list_ascii_of_string s) with
  | c :: r =>
      if ascii_dec c "-" then Z.opp <$> parse_unsigned r
      else if ascii_dec c "+" then parse_unsigned r
      else parse_unsigned (c :: r)
  | [] => None
  end.

(** [int(s)]: raises [ValueError] when [s] is not an integer literal. *)
Definition py_int (s : string) : Exc Z :=
  match parse_int s with Some z => Ok z | None => Raise ValueError end.

(** Python slicing [s[a:b]] for [0 <= a <= b] (clipped at the end, as Python does). *)
Definition slice (a b : nat) (s : string) : string := substring a (b - a) s.

(** Python indexing [s[i]] for [i >= 0]. *)
Definition str_at (i : nat) (s : string) : Exc ascii :=
  match String.get i s with Some c => Ok c | None => Raise IndexError end.

(* ------------------------------------------------------------------ *)
(** ** Python's [calendar] module *)

(** [calendar.isleap]: Gregorian rule, with Python's floor modulo. *)
Definition isleap (year : Z) : bool :=
  (year mod 4 =? 0) && (negb (year mod 100 =? 0) || (year mod 400 =? 0)).

(** [calendar.mdays]: days per month in a common year. *)
Definition mdays (month : Z) : Z :=
  match month with
  | 1 | 3 | 5 | 7 | 8 | 10 | 12 => 31
  | 4 | 6 | 9 | 11 => 30
  | 2 => 28
  | _ => 0
  end.

(** [calendar.monthrange(year, month)[1]]: raises [IllegalMonthError] when
    [month] is outside 1..12. The first component (the weekday of day 1) never
    raises for a valid month: CPython maps years outside datetime's range into
    it before computing the weekday; only the day count is used here. *)
Definition days_in_month (year month : Z) : Z :=
  mdays month + (if (month =? 2) && isleap year then 1 else 0).

Definition monthrange_days (year month : Z) : Exc Z :=
  if (1 <=? month) && (month <=? 12) then Ok (days_in_month year month)
  else Raise IllegalMonthError.

(* ------------------------------------------------------------------ *)
(** ** Season calendar ([_season_key], [_expected_days_year],
    [_expected_days_season]) *)

Definition _season_key (year month : Z) : option (Z * string) :=
  if (month =? 3) || (month =? 4) || (month =? 5) then Some (year, "spring"%string)
  else if (month =? 6) || (month =? 7) || (month =? 8) then Some (year, "summer"%string)
  else if (month =? 9) || (month =? 10) || (month =? 11) then Some (year, "autumn"%string)
  else if month =? 12 then Some (year + 1, "winter"%string)
  else if (month =? 1) || (month =? 2) then Some (year, "winter"%string)
  else None.

Definition _expected_days_year (year : Z) : Z :=
  if isleap year then 366 else 365.

(** The loop [for y, m in zip(base_years, months): total += monthrange(y, m)[1]]. *)
Fixpoint sum_monthranges (ym : list (Z * Z)) (total : Z) : Exc Z :=
  match ym with
  | [] => Ok total
  | (y, m) :: r => d ← monthrange_days y m; sum_monthranges r (total + d)
  end.

Definition _expected_days_season (year : Z) (season : string) : Exc Z :=
  if String.eqb season "spring" then
    sum_monthranges [(year, 3); (year, 4); (year, 5)] 0
  else if String.eqb season "summer" then
    sum_monthranges [(year, 6); (year, 7); (year, 8)] 0
  else if String.eqb season "autumn" then
    sum_monthranges [(year, 9); (year, 10); (year, 11)] 0
  else if String.eqb season "winter" then
    sum_monthranges [(year - 1, 12); (year, 1); (year, 2)] 0
  else Raise ValueError.

(* ------------------------------------------------------------------ *)
(** ** Python floats *)

(** [float(z)] for an [int] of magnitude below [2^62] (exact there when below
    [2^53]); the day values parsed here have at most five characters and the
    day counts are line counts, far below both bounds. *)
Definition float_of_Z (z : Z) : float :=
  if z <? 0 then PrimFloat.opp (PrimFloat.of_uint63 (Uint63.of_Z (- z)))
  else PrimFloat.of_uint63 (Uint63.of_Z z).

Definition zero_f : float := PrimFloat.of_uint63 (Uint63.of_Z 0).
Definition ten_f : float := PrimFloat.of_uint63 (Uint63.of_Z 10).

(* ------------------------------------------------------------------ *)
(** ** [compute_means]: the streaming aggregator *)

Record MeanPoint := {
  year : Z;
  value_c : option float;
  present_days : Z;
  expected_days : Z
}.

(** The four dicts of [compute_means]. *)
Record acc := mkAcc {
  yearly_sum : gmap (string * Z) float;
  yearly_count : gmap (string * Z) Z;
  seasonal_sum : gmap (string * Z * string) float;
  seasonal_count : gmap (string * Z * string) Z
}.

Definition empty_acc : acc := mkAcc ∅ ∅ ∅ ∅.

(** Lines 165-175: add one valid sample to the yearly and seasonal sums. *)
Definition accumulate (start_year end_year : Z) (element : string) (year : Z)
    (season : option (Z * string)) (value_c : float) (a : acc) : acc :=
  let '(ys, yc) :=
    if (start_year <=? year) && (year <=? end_year) then
      let k := (element, year) in
      (<[k := PrimFloat.add (default zero_f (yearly_sum a !! k)) value_c]> (yearly_sum a),
       <[k := default 0 (yearly_count a !! k) + 1]> (yearly_count a))
    else (yearly_sum a, yearly_count a) in
  let '(ss, sc) :=
    match season with
    | Some (season_year, season_name) =>
        if (start_year <=? season_year) && (season_year <=? end_year) then
          let k2 := (element, season_year, season_name) in
          (<[k2 := PrimFloat.add (default zero_f (seasonal_sum a !! k2)) value_c]> (seasonal_sum a),
           <[k2 := default 0 (seasonal_count a !! k2) + 1]> (seasonal_count a))
        else (seasonal_sum a, seasonal_count a)
    | None => (seasonal_sum a, seasonal_count a)
    end in
  mkAcc ys yc ss sc.

(** Lines 148-175: [for day in range(1, 32)], with [fuel] the days left. *)
Fixpoint day_loop (line : string) (start_year end_year : Z) (element : string)
    (year month : Z) (season : option (Z * string)) (fuel day : nat) (a : acc)
    : Exc acc :=
  match fuel with
  | O => Ok a
  | S fuel' =>
      let base := (21 + (day - 1) * 8)%nat in
      if (String.length line <? base + 8)%nat then Ok a   (* break *)
      else
        raw ← py_int (slice base (base + 5) line);
        qflag ← str_at (base + 6) line;
        if (raw =? -9999) || negb (Ascii.eqb qflag " ") then
          day_loop line start_year end_year element year month season fuel' (S day) a
        else
          match monthrange_days year month with
          | Raise IllegalMonthError =>
              day_loop line start_year end_year element year month season fuel' (S day) a
          | Raise e => Raise e
          | Ok ndays =>
              if Z.of_nat day >? ndays then
                day_loop line start_year end_year element year month season fuel' (S day) a
              else
                let value_c := PrimFloat.div (float_of_Z raw) ten_f in
                day_loop line start_year end_year element year month season fuel' (S day)
                  (accumulate start_year end_year element year season value_c a)
          end
  end.

(** Lines 136-175: the body of [for line in f]. *)
Definition process_line (start_year end_year : Z) (elements : list string)
    (a : acc) (line : string) : Exc acc :=
  if (String.length line <? 21)%nat then Ok a
  else
    year ← py_int (slice 11 15 line);
    month ← py_int (slice 15 17 line);
    let element := slice 17 21 line in
    if negb (existsb (String.eqb element) elements) then Ok a
    else if (year <? start_year - 1) || (end_year <? year) then Ok a
    else
      let season := _season_key year month in
      day_loop line start_year end_year element year month season 31 1 a.

Fixpoint process_lines (start_year end_year : Z) (elements : list string)
    (a : acc) (lines : list string) : Exc acc :=
  match lines with
  | [] => Ok a
  | line :: rest =>
      a' ← process_line start_year end_year elements a line;
      process_lines start_year end_year elements a' rest
  end.

(** Python's [range(a, b)] on integers. *)
Definition zrange (a b : Z) : list Z :=
  map (fun i => a + Z.of_nat i) (seq 0 (Z.to_nat (b - a))).

(** ASCII [str.lower]. *)
Definition lower_ascii (c : ascii) : ascii :=
  let n := nat_of_ascii c in
  if ((65 <=? n) && (n <=? 90))%nat then ascii_of_nat (n + 32) else c.

Definition lower (s : string) : string :=
  string_of_list_ascii (map lower_ascii (list_ascii_of_string s)).

(** [(sum[k] / cnt) if cnt else None]. *)
Definition mean_of {K} `{Countable K} (sums : gmap K float) (k : K) (cnt : Z)
    : Exc (option float) :=
  if cnt =? 0 then Ok None
  else match sums !! k with
       | Some s => Ok (Some (PrimFloat.div s (float_of_Z cnt)))
       | None => Raise KeyError
       end.

Definition year_series (a : acc) (element : string) (start_year end_year : Z)
    : Exc (list MeanPoint) :=
  mapM (fun y =>
          let k := (element, y) in
          let cnt := default 0 (yearly_count a !! k) in
          mean ← mean_of (yearly_sum a) k cnt;
          Ok {| year := y; value_c := mean; present_days := cnt;
                expected_days := _expected_days_year y |})
       (zrange start_year (end_year + 1)).

Definition season_series (a : acc) (element season : string) (start_year end_year : Z)
    : Exc (list MeanPoint) :=
  mapM (fun y =>
          let k := (element, y, season) in
          let cnt := default 0 (seasonal_count a !! k) in
          mean ← mean_of (seasonal_sum a) k cnt;
          ed ← _expected_days_season y season;
          Ok {| year := y; value_c := mean; present_days := cnt; expected_days := ed |})
       (zrange start_year (end_year + 1)).

Definition seasons : list string := ["spring"; "summer"; "autumn"; "winter"]%string.

Fixpoint add_seasons (a : acc) (element el : string) (start_year end_year : Z)
    (ss : list string) (out : gmap string (list MeanPoint))
    : Exc (gmap string (list MeanPoint)) :=
  match ss with
  | [] => Ok out
  | season :: rest =>
      pts ← season_series a element season start_year end_year;
      add_seasons a element el start_year end_year rest
        (<[(el ++ "_" ++ season)%string := pts]> out)
  end.

(** Lines 177-198: [for element in elements: ...]. *)
Fixpoint build_output (a : acc) (start_year end_year : Z) (elements : list string)
    (out : gmap string (list MeanPoint)) : Exc (gmap string (list MeanPoint)) :=
  match elements with
  | [] => Ok out
  | element :: rest =>
      let el := lower element in
      ys ← year_series a element start_year end_year;
      out' ← add_seasons a element el start_year end_year seasons
               (<[(el ++ "_year")%string := ys]> out);
      build_output a start_year end_year rest out'
  end.

(** [compute_means(dly_path, start_year=..., end_year=..., elements=...)], the
    file given as the list of its lines as [for line in f] yields them. *)
Definition compute_means (lines : list string) (start_year end_year : Z)
    (elements : list string) : Exc (gmap string (list MeanPoint)) :=
  a ← process_lines start_year end_year elements empty_acc lines;
  build_output a start_year end_year elements ∅.

(* ------------------------------------------------------------------ *)
(** ** [app/cache.py]: the metric cache *)

Module Cache.

Definition ALL_METRICS : list string :=
  ["tmin_year"; "tmax_year"; "tmin_spring"; "tmax_spring"; "tmin_summer";
   "tmax_summer"; "tmin_autumn"; "tmax_autumn"; "tmin_winter"; "tmax_winter"]%string.

(** A row of [station_metric_cache]; its key, the primary key
    [(station_id, metric, year)], is the key of the map below. *)
Record CacheRow := mkRow {
  row_sha256 : string;
  row_value_c : option float;
  row_present_days : Z;
  row_expected_days : Z;
  row_computed_at : Z
}.

(** The committed content of [station_metric_cache]. *)
Abbreviation store := (gmap (string * string * Z) CacheRow).

(** [WHERE station_id=%s AND sha256=%s AND year BETWEEN %s AND %s]. *)
Definition row_matches (station_id sha256 : string) (start_year end_year : Z)
    (kr : (string * string * Z) * CacheRow) : bool :=
  let '((st, _, y), r) := kr in
  String.eqb st station_id && String.eqb (row_sha256 r) sha256
  && (start_year <=? y) && (y <=? end_year).

(** [SELECT count( * ) FROM station_metric_cache WHERE ...]. *)
Definition count_rows (db : store) (station_id sha256 : string) (start_year end_year : Z) : Z :=
  Z.of_nat (length (List.filter (row_matches station_id sha256 start_year end_year)
                                (map_to_list db))).

(** [INSERT ... ON CONFLICT (station_id, metric, year) DO UPDATE SET ...]: both
    branches leave the same row; [computed_at] is the transaction's [now()]. *)
Definition upsert (now : Z) (station_id sha256 metric : string) (p : MeanPoint)
    (db : store) : store :=
  <[(station_id, metric, year p) :=
      mkRow sha256 (value_c p) (present_days p) (expected_days p) now]> db.

(** Database statements of one call are numbered in execution order; a call
    is run against an oracle naming the first statement that raises, if any. *)
Definition stmt_fails (fail_at : option nat) (n : nat) : bool :=
  bool_decide (fail_at = Some n).

(** [for p in points: cur.execute(INSERT ...)], on the open transaction. *)
Fixpoint exec_points (fail_at : option nat) (n : nat) (now : Z)
    (station_id sha256 metric : string) (pts : list MeanPoint) (pending : store)
    : nat * Exc store :=
  match pts with
  | [] => (n, Ok pending)
  | p :: rest =>
      if stmt_fails fail_at n then (S n, Raise DbError)
      else exec_points fail_at (S n) now station_id sha256 metric rest
             (upsert now station_id sha256 metric p pending)
  end.

(** [for metric in ALL_METRICS: points = series[metric]; ...]. *)
Fixpoint exec_metrics (fail_at : option nat) (n : nat) (now : Z)
    (station_id sha256 : string) (series : gmap string (list MeanPoint))
    (ms : list string) (pending : store) : nat * Exc store :=
  match ms with
  | [] => (n, Ok pending)
  | metric :: rest =>
      match series !! metric with
      | None => (n, Raise KeyError)
      | Some pts =>
          let '(n', r) := exec_points fail_at n now station_id sha256 metric pts pending in
          match r with
          | Raise e => (n', Raise e)
          | Ok pending' => exec_metrics fail_at n' now station_id sha256 series rest pending'
          end
      end
  end.

(** The rows one run writes, in execution order: for each metric, one row
    per point of [series[metric]]. *)
Definition run_rows (now : Z) (station_id sha256 : string)
    (series : gmap string (list MeanPoint)) (ms : list string)
    : list ((string * string * Z) * CacheRow) :=
  concat (map (fun metric =>
    map (fun p => ((station_id, metric, year p),
                   mkRow sha256 (value_c p) (present_days p) (expected_days p) now))
        (default [] (series !! metric))) ms).

(** Writing a list of rows one after the other. *)
Definition write_rows (rows : list ((string * string * Z) * CacheRow)) (db : store) : store :=
  foldl (fun db kr => <[kr.1 := kr.2]> db) db rows.

(** The rows of the upserts of one metric. *)
Definition points_rows (now : Z) (station_id sha256 metric : string) (pts : list MeanPoint)
    : list ((string * string * Z) * CacheRow) :=
  map (fun p => ((station_id, metric, year p),
                 mkRow sha256 (value_c p) (present_days p) (expected_days p) now)) pts.

(** The keys of the rows of a run, for series whose points cover [ys]. *)
Definition run_keys (st : string) (ms : list string) (ys : list Z) : list (string * string * Z) :=
  concat (map (fun m => map (fun y => (st, m, y)) ys) ms).

(** Observable steps of a population call. *)
Inductive event := EvLock | EvCompute | EvCommit | EvUnlock.

(** The [try] block under the advisory lock (lines 50-92): the recheck, the
    computation, the upserts and [conn.commit()]. It returns the number of the
    next statement, the outcome, the committed store and the events. An
    exception before [conn.commit()] succeeds rolls the transaction back, so the
    committed store stays [db]. *)
Definition locked_body (fail_at : option nat) (now : Z) (db : store)
    (station_id sha256 : string) (lines : list string) (start_year end_year : Z)
    (expected_rows : Z) : nat * (Exc unit * store * list event) :=
  if stmt_fails fail_at 2 then (3%nat, (Raise DbError, db, []))
  else if expected_rows <=? count_rows db station_id sha256 start_year end_year then
    (3%nat, (Ok tt, db, []))
  else
    match compute_means lines start_year end_year ["TMIN"; "TMAX"]%string with
    | Raise e => (3%nat, (Raise e, db, [EvCompute]))
    | Ok series =>
        let '(n, r) := exec_metrics fail_at 3 now station_id sha256 series ALL_METRICS db in
        match r with
        | Raise e => (n, (Raise e, db, [EvCompute]))
        | Ok pending =>
            if stmt_fails fail_at n then (S n, (Raise DbError, db, [EvCompute]))
            else (S n, (Ok tt, pending, [EvCompute; EvCommit]))
        end
    end.

(** [ensure_cached_metrics]: statement 0 is the fast-path count, statement 1
    [pg_advisory_lock]; the [finally] clause runs [pg_advisory_unlock] (when
    that statement raises, its exception replaces the outcome, and the session
    lock is released when the connection closes). *)
Definition ensure_cached_metrics (fail_at : option nat) (now : Z) (db : store)
    (station_id sha256 : string) (lines : list string) (start_year end_year : Z)
    : Exc unit * store * list event :=
  let years := end_year - start_year + 1 in
  let expected_rows := years * Z.of_nat (length ALL_METRICS) in
  if stmt_fails fail_at 0 then (Raise DbError, db, [])
  else if expected_rows <=? count_rows db station_id sha256 start_year end_year then
    (Ok tt, db, [])
  else if stmt_fails fail_at 1 then (Raise DbError, db, [])
  else
    let '(n, (r, db', evs)) :=
      locked_body fail_at now db station_id sha256 lines start_year end_year expected_rows in
    let r' := if stmt_fails fail_at n then Raise DbError else r in
    (r', db', EvLock :: evs ++ [EvUnlock]).

(** Number of aggregation passes in a trace. *)
Definition computes (evs : list event) : nat :=
  length (List.filter (fun e => match e with EvCompute => true | _ => false end) evs).

(** [load_cached_series]: the output entry of one metric. *)
Record SeriesOut := {
  key : string;
  series_sha256 : string;
  points : list MeanPoint
}.

(** The point read from a cached row. *)
Definition row_point (y : Z) (r : CacheRow) : MeanPoint :=
  {| year := y; value_c := row_value_c r; present_days := row_present_days r;
     expected_days := row_expected_days r |}.

(** [{"year": y, "value_c": None, "present_days": 0, "expected_days": 0}]. *)
Definition placeholder (y : Z) : MeanPoint :=
  {| year := y; value_c := None; present_days := 0; expected_days := 0 |}.

(** The [WHERE] clause of the series query, with [AND metric IN (...)]. *)
Definition series_row_matches (station_id sha256 : string) (start_year end_year : Z)
    (metrics : list string) (kr : (string * string * Z) * CacheRow) : bool :=
  let '((_, metric, _), _) := kr in
  row_matches station_id sha256 start_year end_year kr
  && existsb (String.eqb metric) metrics.

(** [for metric, year, ... in cur.fetchall(): by_metric[metric][year] = {...}]. *)
Fixpoint fill_by_metric (rows : list ((string * string * Z) * CacheRow))
    (by_metric : gmap string (gmap Z MeanPoint)) : Exc (gmap string (gmap Z MeanPoint)) :=
  match rows with
  | [] => Ok by_metric
  | ((_, metric, y), r) :: rest =>
      match by_metric !! metric with
      | None => Raise KeyError
      | Some d => fill_by_metric rest (<[metric := <[y := row_point y r]> d]> by_metric)
      end
  end.

(** [load_cached_series]. With an empty [metrics] list the query text contains
    [metric IN ()], which PostgreSQL rejects as a syntax error. The rows are
    fetched [ORDER BY metric, year]; the order does not matter for the dict
    built from them, whose keys [(metric, year)] are unique among the rows of one
    station by the primary key, so they are taken in the store's order. *)
Definition load_cached_series (db : store) (station_id sha256 : string)
    (start_year end_year : Z) (metrics : list string) : Exc (list SeriesOut) :=
  let by_metric0 : gmap string (gmap Z MeanPoint) :=
    list_to_map ((fun m => (m, ∅)) <$> metrics) in
  match metrics with
  | [] => Raise DbError
  | _ :: _ =>
      let rows := List.filter (series_row_matches station_id sha256 start_year end_year metrics)
                              (map_to_list db) in
      by_metric ← fill_by_metric rows by_metric0;
      mapM (fun metric =>
              match by_metric !! metric with
              | None => Raise KeyError
              | Some d =>
                  Ok {| key := metric; series_sha256 := sha256;
                        points := map (fun y => default (placeholder y) (d !! y))
                                      (zrange start_year (end_year + 1)) |}
              end) metrics
  end.

(** The point the specification asks [load_cached_series] for at
    [(metric, year)]: the values of the cached row when it carries the
    requested hash, the placeholder otherwise. *)
Definition cached_point (db : store) (station_id sha256 metric : string) (y : Z) : MeanPoint :=
  match db !! (station_id, metric, y) with
  | Some r => if String.eqb (row_sha256 r) sha256 then row_point y r else placeholder y
  | None => placeholder y
  end.

(** *** Concurrent population calls

    [N] callers run [ensure_cached_metrics] for the same station, hash, range
    and file, interleaved statement by statement. Each database statement and
    the commit of the upsert transaction are atomic; the advisory lock is one
    token per station; the computation touches no shared state, so it is one
    step. When [may_fail] is [true], every database statement may raise: the
    fast-path count, [pg_advisory_lock], the recheck, an [INSERT] of the upsert
    loop (among others the foreign-key violation of
    [station_metric_cache.station_id] for a station missing from [stations]) or
    [conn.commit()], and [pg_advisory_unlock]. A failure inside the transaction
    rolls it back; a failing unlock ends the call with its exception, and the
    session lock goes with the closed connection. [PReleasing ok] is a caller
    in the [finally] clause, [ok] being [false] when the [try] block raised;
    [PDone db] records the committed store a caller returned in, [PFailed] a
    caller that raised. *)
Inductive pc :=
  | PStart
  | PWantLock
  | PLocked
  | PComputing
  | PCommitting (series : gmap string (list MeanPoint))
  | PReleasing (ok : bool)
  | PDone (seen : store)
  | PFailed.

Record cstate := mkC {
  c_db : store;
  c_lock : option nat;
  c_pcs : list pc;
  c_computes : nat
}.

Section Concurrent.
Variables (station_id sha256 : string) (lines : list string) (start_year end_year now : Z).

Definition expected_rows_of : Z :=
  (end_year - start_year + 1) * Z.of_nat (length ALL_METRICS).

Definition cache_warm (db : store) : Prop :=
  expected_rows_of <= count_rows db station_id sha256 start_year end_year.

Definition the_result : Exc (gmap string (list MeanPoint)) :=
  compute_means lines start_year end_year ["TMIN"; "TMAX"]%string.

Inductive cstep (may_fail : bool) : cstate -> cstate -> Prop :=
  | cs_fast_hit i db l pcs n :
      pcs !! i = Some PStart -> cache_warm db ->
      cstep may_fail (mkC db l pcs n) (mkC db l (<[i := PDone db]> pcs) n)
  | cs_fast_miss i db l pcs n :
      pcs !! i = Some PStart -> ~ cache_warm db ->
      cstep may_fail (mkC db l pcs n) (mkC db l (<[i := PWantLock]> pcs) n)
  | cs_fast_fail i db l pcs n :
      may_fail = true -> pcs !! i = Some PStart ->
      cstep may_fail (mkC db l pcs n) (mkC db l (<[i := PFailed]> pcs) n)
  | cs_lock i db pcs n :
      pcs !! i = Some PWantLock ->
      cstep may_fail (mkC db None pcs n) (mkC db (Some i) (<[i := PLocked]> pcs) n)
  | cs_lock_fail i db l pcs n :
      may_fail = true -> pcs !! i = Some PWantLock ->
      cstep may_fail (mkC db l pcs n) (mkC db l (<[i := PFailed]> pcs) n)
  | cs_recheck_hit i db l pcs n :
      pcs !! i = Some PLocked -> cache_warm db ->
      cstep may_fail (mkC db l pcs n) (mkC db l (<[i := PReleasing true]> pcs) n)
  | cs_recheck_miss i db l pcs n :
      pcs !! i = Some PLocked -> ~ cache_warm db ->
      cstep may_fail (mkC db l pcs n) (mkC db l (<[i := PComputing]> pcs) n)
  | cs_recheck_fail i db l pcs n :
      may_fail = true -> pcs !! i = Some PLocked ->
      cstep may_fail (mkC db l pcs n) (mkC db l (<[i := PReleasing false]> pcs) n)
  | cs_compute_ok i db l pcs n series :
      pcs !! i = Some PComputing -> the_result = Ok series ->
      cstep may_fail (mkC db l pcs n) (mkC db l (<[i := PCommitting series]> pcs) (S n))
  | cs_compute_fail i db l pcs n e :
      pcs !! i = Some PComputing -> the_result = Raise e ->
      cstep may_fail (mkC db l pcs n) (mkC db l (<[i := PReleasing false]> pcs) (S n))
  | cs_commit_ok i db l pcs n series k db' :
      pcs !! i = Some (PCommitting series) ->
      exec_metrics None 3 now station_id sha256 series ALL_METRICS db = (k, Ok db') ->
      cstep may_fail (mkC db l pcs n) (mkC db' l (<[i := PReleasing true]> pcs) n)
  | cs_commit_fail i db l pcs n series k e :
      pcs !! i = Some (PCommitting series) ->
      exec_metrics None 3 now station_id sha256 series ALL_METRICS db = (k, Raise e) ->
      cstep may_fail (mkC db l pcs n) (mkC db l (<[i := PReleasing false]> pcs) n)
  | cs_write_fail i db l pcs n series :
      may_fail = true -> pcs !! i = Some (PCommitting series) ->
      cstep may_fail (mkC db l pcs n) (mkC db l (<[i := PReleasing false]> pcs) n)
  | cs_release i db l pcs n ok :
      pcs !! i = Some (PReleasing ok) ->
      cstep may_fail (mkC db l pcs n)
            (mkC db None (<[i := if ok then PDone db else PFailed]> pcs) n)
  | cs_unlock_fail i db l pcs n ok :
      may_fail = true -> pcs !! i = Some (PReleasing ok) ->
      cstep may_fail (mkC db l pcs n) (mkC db None (<[i := PFailed]> pcs) n).

(** [N] callers that have not started, on the committed store [db]. *)
Definition cinit (N : nat) (db : store) : cstate := mkC db None (replicate N PStart) 0.

Definition all_done (s : cstate) : Prop :=
  Forall (fun p => match p with PDone _ | PFailed => True | _ => False end) (c_pcs s).

End Concurrent.

(** Callers between [pg_advisory_lock] and [pg_advisory_unlock]. *)
Definition holding (p : pc) : bool :=
  match p with PLocked | PComputing | PCommitting _ | PReleasing _ => true | _ => false end.

(** The lock token names the caller that holds it. *)
Definition lock_inv (c : cstate) : Prop :=
  forall i p, c_pcs c !! i = Some p -> holding p = true -> c_lock c = Some i.

(** The three phases of a run whose aggregation yields [series], from the
    store [db0]: before any aggregation, between the aggregation and its
    commit, and after the commit, which left the store [db1]. *)
Definition phase_before (db0 : store) (c : cstate) : Prop :=
  c_computes c = 0%nat /\ c_db c = db0 /\
  forall i p, c_pcs c !! i = Some p ->
    match p with PStart | PWantLock | PLocked | PComputing => True | _ => False end.

Definition phase_computed (db0 : store) (series : gmap string (list MeanPoint))
    (c : cstate) : Prop :=
  c_computes c = 1%nat /\ c_db c = db0 /\
  (exists k, c_pcs c !! k = Some (PCommitting series)) /\
  forall i p, c_pcs c !! i = Some p ->
    match p with PStart | PWantLock => True | PCommitting s' => s' = series | _ => False end.

Definition phase_committed (db1 : store) (c : cstate) : Prop :=
  c_computes c = 1%nat /\ c_db c = db1 /\
  forall i p, c_pcs c !! i = Some p ->
    match p with
    | PStart | PWantLock | PLocked => True
    | PReleasing ok => ok = true
    | PDone d => d = db1
    | _ => False
    end.

End Cache.


(* ------------------------------------------------------------------ *)
(** ** Python string helpers *)

(** [s.split(",")]: every comma separates two pieces, so [""] gives [[""]]. *)
Fixpoint split_comma (s : string) : list string :=
  match s with
  | EmptyString => [EmptyString]
  | String c r =>
      let rest := split_comma r in
      if Ascii.eqb c "," then EmptyString :: rest
      else match rest with
           | p :: ps => String c p :: ps
           | [] => [String c EmptyString]
           end
  end.

(** [s.strip()] on ASCII text. *)
Definition str_strip (s : string) : string :=
  string_of_list_ascii (py_strip (list_ascii_of_string s)).

(* ------------------------------------------------------------------ *)
(** ** [app/main.py]: the series endpoint [api_station_series] *)

Module Api.
Import Cache.

(** [[m.strip() for m in metrics.split(",") if m.strip()]]. *)
Definition requested_metrics (metrics : string) : list string :=
  map str_strip (List.filter (fun m => negb (String.eqb (str_strip m) ""))
                             (split_comma metrics)).

(** [m in set(ALL_METRICS)]. *)
Definition is_metric (m : string) : bool := existsb (String.eqb m) ALL_METRICS.

(** [",".join(ms)]: a [metrics] parameter built from a list of names. *)
Fixpoint join_comma (ms : list string) : string :=
  match ms with
  | [] => ""
  | [m] => m
  | m :: rest => m ++ "," ++ join_comma rest
  end.

(** The returned dict [{"station_id", "start_year", "end_year", "series"}]. *)
Record SeriesResponse := {
  resp_station_id : string;
  resp_start_year : Z;
  resp_end_year : Z;
  resp_series : list SeriesOut
}.

(** What the client receives: the dict, an [HTTPException] (or FastAPI's
    own 422 for a failed [Query] constraint), or an exception escaping the
    handler. *)
Inductive response (A : Type) : Type :=
  | Respond (a : A)
  | HttpError (status_code : Z)
  | ServerError (e : exn).
Arguments Respond {A} a.
Arguments HttpError {A} status_code.
Arguments ServerError {A} e.

(** [api_station_series(station_id, start_year, end_year, metrics)].
    [stations] is the set of ids of the [stations] table, read by
    [get_station]; [max_year] is [MAX_YEAR]; [sha] and [lines] are the hash and
    the lines of the file [ensure_station_dly] returns for the station. The
    population call runs with the statement-failure oracle [fail_at], then the
    series are read from the store it committed. FastAPI checks the
    [Query(..., ge=1700)] constraints before the handler runs. The result is
    the response, the committed store and the events of the population call. *)
Definition api_station_series (stations : gset string) (max_year : Z)
    (fail_at : option nat) (now : Z) (db : store) (sha : string) (lines : list string)
    (station_id : string) (start_year end_year : Z) (metrics : string)
    : response SeriesResponse * store * list event :=
  if (start_year <? 1700) || (end_year <? 1700) then (HttpError 422, db, [])
  else if negb (bool_decide (station_id ∈ stations)) then (HttpError 404, db, [])
  else if start_year >? end_year then (HttpError 400, db, [])
  else if end_year >? max_year then (HttpError 400, db, [])
  else
    let requested := requested_metrics metrics in
    if match requested with [] => true | _ :: _ => false end
       || existsb (fun m => negb (is_metric m)) requested
    then (HttpError 400, db, [])
    else
      let '(r, db', evs) :=
        ensure_cached_metrics fail_at now db station_id sha lines start_year end_year in
      match r with
      | Raise e => (ServerError e, db', evs)
      | Ok _ =>
          match load_cached_series db' station_id sha start_year end_year requested with
          | Raise e => (ServerError e, db', evs)
          | Ok series_out =>
              (Respond {| resp_station_id := station_id; resp_start_year := start_year;
                          resp_end_year := end_year; resp_series := series_out |}, db', evs)
          end
      end.

End Api.

(* ------------------------------------------------------------------ *)
(** ** [scripts/import_metadata.py]: the station coverage table

    The second loop of the script reads [data/inventory.txt] into
    [station_coverage]. It runs after the [stations] loop, on the same
    connection: [stations] below is the set of ids of the [stations] table at
    that point. The connection's [with] block commits at its end and rolls
    back when an exception escapes it. *)

Module Inventory.

(** A row of [station_coverage], keyed by [id]. *)
Record Coverage := mkCov {
  tmin_first_year : option Z;
  tmin_last_year : option Z;
  tmax_first_year : option Z;
  tmax_last_year : option Z
}.

Abbreviation coverage_table := (gmap string Coverage).

(** SQL [COALESCE(station_coverage.col, EXCLUDED.col)]. *)
Definition coalesce (old new : option Z) : option Z :=
  match old with Some _ => old | None => new end.

(** [INSERT INTO station_coverage ... ON CONFLICT (id) DO UPDATE SET col =
    COALESCE(...)]; the foreign key [references stations(id)] makes the
    insertion of a new id missing from [stations] raise (an update keeps the
    key and is not checked). *)
Definition upsert_coverage (stations : gset string) (id : string) (c : Coverage)
    (tbl : coverage_table) : Exc coverage_table :=
  match tbl !! id with
  | None => if bool_decide (id ∈ stations) then Ok (<[id := c]> tbl) else Raise DbError
  | Some old =>
      Ok (<[id := mkCov (coalesce (tmin_first_year old) (tmin_first_year c))
                        (coalesce (tmin_last_year old) (tmin_last_year c))
                        (coalesce (tmax_first_year old) (tmax_first_year c))
                        (coalesce (tmax_last_year old) (tmax_last_year c))]> tbl)
  end.

(** The body of [for line in f] over [inventory.txt]. *)
Definition import_line (stations : gset string) (tbl : coverage_table) (line : string)
    : Exc coverage_table :=
  let station_id := str_strip (slice 0 11 line) in
  let element := str_strip (slice 31 35 line) in
  first_year ← py_int (str_strip (slice 36 40 line));
  last_year ← py_int (str_strip (slice 41 45 line));
  if String.eqb element "TMIN" then
    upsert_coverage stations station_id
      (mkCov (Some first_year) (Some last_year) None None) tbl
  else if String.eqb element "TMAX" then
    upsert_coverage stations station_id
      (mkCov None None (Some first_year) (Some last_year)) tbl
  else Ok tbl.

Fixpoint import_lines (stations : gset string) (tbl : coverage_table) (lines : list string)
    : Exc coverage_table :=
  match lines with
  | [] => Ok tbl
  | line :: rest => tbl' ← import_line stations tbl line; import_lines stations tbl' rest
  end.

(** The loop inside the transaction: on an exception the committed table is
    the one before the loop. *)
Definition import_inventory (stations : gset string) (tbl : coverage_table)
    (lines : list string) : Exc unit * coverage_table :=
  match import_lines stations tbl lines with
  | Ok tbl' => (Ok tt, tbl')
  | Raise e => (Raise e, tbl)
  end.

(** The coverage columns [(first, last)] of an element. *)
Definition element_years (element : string) (c : Coverage) : option Z * option Z :=
  if String.eqb element "TMIN" then (tmin_first_year c, tmin_last_year c)
  else (tmax_first_year c, tmax_last_year c).

End Inventory.


(* ------------------------------------------------------------------ *)
(** ** The day-slot rules in the spec's words (compared with [day_loop])

    Slot [d] (1..31) of a line is the 8-character group starting at
    [21 + 8 (d-1)]: a 5-character value, then three flags of which the second
    is the quality flag; it is present when it fits in the line. A day is
    invalid when its raw value is -9999, its quality flag is non-blank, or its
    day number exceeds the days of that (year, month); valid raw values are
    tenths of a degree, divided by 10. *)

Definition slot_base (d : nat) : nat := (21 + (d - 1) * 8)%nat.

Definition slot_fits (line : string) (d : nat) : bool :=
  (slot_base d + 8 <=? String.length line)%nat.

(** Slot [d] fits exactly when [21 + 8 d <= length line], that is when
    [d <= (length line - 21) / 8]: the present slots are a prefix of 1..31. *)
Definition slot_days (line : string) : list nat :=
  seq 1 (Nat.min 31 ((String.length line - 21) / 8)).

Definition slot_raw (line : string) (d : nat) : option Z :=
  parse_int (slice (slot_base d) (slot_base d + 5) line).

Definition slot_qflag (line : string) (d : nat) : option ascii :=
  String.get (slot_base d + 6) line.

Definition spec_day_valid (y m raw : Z) (q : ascii) (d : nat) : bool :=
  negb (raw =? -9999) && Ascii.eqb q " " && (Z.of_nat d <=? days_in_month y m).

Definition spec_slot_value (line : string) (y m : Z) (d : nat) : option float :=
  match slot_raw line d, slot_qflag line d with
  | Some raw, Some q =>
      if spec_day_valid y m raw q d then Some (PrimFloat.div (float_of_Z raw) ten_f) else None
  | _, _ => None
  end.

(** The values, in day order, of the valid days of a line of [(y, m)]. *)
Definition spec_included_values (line : string) (y m : Z) : list float :=
  omap (spec_slot_value line y m) (slot_days line).

(** Their average: [None] for no value, else their sum divided by their count. *)
Definition spec_mean (vals : list float) : option float :=
  match vals with
  | [] => None
  | _ => Some (PrimFloat.div (fold_left PrimFloat.add vals zero_f)
                             (float_of_Z (Z.of_nat (length vals))))
  end.

(** Every present slot has a well-formed value field. *)
Definition slots_parse (line : string) : bool :=
  forallb (fun d => bool_decide (is_Some (slot_raw line d))) (slot_days line).

(* ================================================================== *)
(** * Sample records *)

Definition newline : string := String (ascii_of_nat 10) EmptyString.

(** A TMAX line of January 2020 as [for line in f] yields it: day 1 holds
    100, day 2 holds 200, day 3 is missing (-9999), day 4 has quality flag
    [X]; the slots of days 5..31 are absent. *)
Definition ex_line : string :=
  ("USW00012345202001TMAX" ++ "  100   " ++ "  200   " ++ "-9999   " ++ "  500 X "
   ++ newline)%string.
(** A TMAX line of December 2019 with one valid day, -5.0 degrees. *)
Definition dec_line : string :=
  ("USW00012345201912TMAX" ++ "  -50   " ++ newline)%string.
(** A PRCP line whose year field is not a number. *)
Definition bad_year_line : string :=
  ("USW00012345abcd01PRCP" ++ "    0   " ++ newline)%string.



(* ================================================================== *)
(** * Season calendar *)

Module SeasonFacts.

(** C2: for every year [Y], [_season_key] sends months 3-5 to [(Y, spring)],
    6-8 to [(Y, summer)], 9-11 to [(Y, autumn)], 12 to [(Y+1, winter)] and
    1-2 to [(Y, winter)]: December rolls into the next year's winter, January
    and February stay in their own year's winter. *)
Theorem season_key_buckets (Y m : Z) :
  ((m = 3 \/ m = 4 \/ m = 5) -> _season_key Y m = Some (Y, "spring"%string)) /\
  ((m = 6 \/ m = 7 \/ m = 8) -> _season_key Y m = Some (Y, "summer"%string)) /\
  ((m = 9 \/ m = 10 \/ m = 11) -> _season_key Y m = Some (Y, "autumn"%string)) /\
  (m = 12 -> _season_key Y m = Some (Y + 1, "winter"%string)) /\
  ((m = 1 \/ m = 2) -> _season_key Y m = Some (Y, "winter"%string)).
Proof.
  unfold _season_key.
  repeat split; intros Hm; repeat destruct Hm as [Hm | Hm]; subst m; reflexivity.
Qed.

(** C3: for every year [Y], the expected-day denominator of the winter bucket
    is [days(Dec, Y-1) + days(Jan, Y) + days(Feb, Y)], the December count taken
    from the previous calendar year, while spring, summer and autumn add up
    their three months of [Y]; for [Y = 2024] the winter denominator is
    [31 + 31 + 29 = 91]. *)
Theorem expected_days_season_cross_year (Y : Z) :
  _expected_days_season Y "winter" =
    Ok (days_in_month (Y - 1) 12 + days_in_month Y 1 + days_in_month Y 2) /\
  _expected_days_season Y "spring" =
    Ok (days_in_month Y 3 + days_in_month Y 4 + days_in_month Y 5) /\
  _expected_days_season Y "summer" =
    Ok (days_in_month Y 6 + days_in_month Y 7 + days_in_month Y 8) /\
  _expected_days_season Y "autumn" =
    Ok (days_in_month Y 9 + days_in_month Y 10 + days_in_month Y 11) /\
  _expected_days_season 2024 "winter" = Ok 91.
Proof.
  repeat split; cbn; f_equal; lia.
Qed.

End SeasonFacts.

(* ================================================================== *)
(** * The aggregator: structural lemmas *)

Module AggFacts.

(** Case on the first [if] of a hypothesis. *)
Ltac case_if_in H :=
  match type of H with context [if ?c then _ else _] => destruct c eqn:? end.

Lemma bind_Ok {A B} (m : Exc A) (k : A -> Exc B) (b : B) :
  (x ← m; k x) = Ok b -> exists a, m = Ok a /\ k a = Ok b.
Proof. destruct m as [a|e]; simpl; [eauto | discriminate]. Qed.

Lemma mapM_Ok {A B} (f : A -> Exc B) (l : list A) (r : list B) :
  mapM f l = Ok r -> Forall2 (fun x y => f x = Ok y) l r.
Proof.
  revert r; induction l as [|x l IH]; intros r H; simpl in H.
  - injection H as <-. constructor.
  - apply bind_Ok in H as (y & Hy & H).
    apply bind_Ok in H as (k & Hk & H).
    injection H as <-. constructor; auto.
Qed.

Lemma mapM_total {A B} (f : A -> Exc B) (l : list A) :
  (forall x, In x l -> exists y, f x = Ok y) -> exists r, mapM f l = Ok r.
Proof.
  induction l as [|x l IH]; intros Hall; simpl.
  - eauto.
  - destruct (Hall x (or_introl eq_refl)) as [y Hy]. rewrite Hy. simpl.
    destruct IH as [k Hk]; [intros; apply Hall; right; done|].
    rewrite Hk. simpl. eauto.
Qed.

(** The count dicts and the sum dicts have the same keys (the code updates
    both together), so [sum[k]] never raises when [count.get(k, 0)] is
    non-zero. *)
Definition acc_ok (a : acc) : Prop :=
  (forall k, is_Some (yearly_count a !! k) -> is_Some (yearly_sum a !! k)) /\
  (forall k, is_Some (seasonal_count a !! k) -> is_Some (seasonal_sum a !! k)).

Lemma acc_ok_empty : acc_ok empty_acc.
Proof. split; intros k; simpl; rewrite lookup_empty; intros [? H]; discriminate. Qed.

Lemma accumulate_ok s e el y season v a :
  acc_ok a -> acc_ok (accumulate s e el y season v a).
Proof.
  intros [Hy Hs]. unfold accumulate.
  destruct ((s <=? y) && (y <=? e)); [|];
  (destruct season as [[sy sn]|]; [destruct ((s <=? sy) && (sy <=? e))|]);
  split; simpl; intros k;
  repeat rewrite lookup_insert; repeat case_decide; eauto.
Qed.

Lemma foldl_accumulate_ok s e el y season vals a :
  acc_ok a -> acc_ok (foldl (fun a v => accumulate s e el y season v a) a vals).
Proof.
  revert a; induction vals as [|v vals IH]; intros a Ha; simpl; [done|].
  apply IH, accumulate_ok, Ha.
Qed.

(** Whatever the day loop does, it adds a sequence of samples of one
    (element, year, season) to the accumulators. *)
Lemma day_loop_fold line s e el y m season fuel day a a' :
  day_loop line s e el y m season fuel day a = Ok a' ->
  exists vals, a' = foldl (fun a v => accumulate s e el y season v a) a vals.
Proof.
  revert day a; induction fuel as [|fuel IH]; intros day a H; simpl in H.
  - injection H as <-. exists []. done.
  - case_if_in H.
    { injection H as <-. exists []. done. }
    apply bind_Ok in H as (raw & _ & H).
    apply bind_Ok in H as (q & _ & H).
    case_if_in H; [eauto|].
    destruct (monthrange_days y m) as [nd|[]]; try discriminate; eauto.
    case_if_in H; [eauto|].
    apply IH in H as [vals ->].
    eexists (_ :: vals). simpl. done.
Qed.

Lemma process_line_fold s e els a line a' :
  process_line s e els a line = Ok a' ->
  a' = a \/ exists el y season vals,
    a' = foldl (fun a v => accumulate s e el y season v a) a vals.
Proof.
  unfold process_line. intros H.
  case_if_in H; [injection H as <-; auto|].
  apply bind_Ok in H as (y & _ & H).
  apply bind_Ok in H as (m & _ & H).
  case_if_in H; [injection H as <-; auto|].
  case_if_in H; [injection H as <-; auto|].
  apply day_loop_fold in H as [vals ->]. right. eauto.
Qed.

Lemma process_lines_ok s e els lines a a' :
  acc_ok a -> process_lines s e els a lines = Ok a' -> acc_ok a'.
Proof.
  revert a; induction lines as [|l lines IH]; intros a Ha H; simpl in H.
  - injection H as <-. done.
  - apply bind_Ok in H as (a1 & H1 & H).
    apply (IH a1); [|done].
    apply process_line_fold in H1 as [->|(el & y & season & vals & ->)]; [done|].
    apply foldl_accumulate_ok, Ha.
Qed.

Lemma mean_of_total {K} `{Countable K} (sums : gmap K float) (counts : gmap K Z) (k : K) :
  (is_Some (counts !! k) -> is_Some (sums !! k)) ->
  exists mo, mean_of sums k (default 0 (counts !! k)) = Ok mo.
Proof.
  intros Hk. unfold mean_of.
  destruct (counts !! k) as [c|] eqn:Hc; simpl; [|eauto].
  destruct (c =? 0); [eauto|].
  destruct (Hk ltac:(eauto)) as [x ->]. eauto.
Qed.

Lemma year_series_total a el s e :
  acc_ok a -> exists pts, year_series a el s e = Ok pts.
Proof.
  intros [Hy _]. apply mapM_total. intros y _.
  destruct (mean_of_total (yearly_sum a) (yearly_count a) (el, y)) as [mo Hmo]; [apply Hy|].
  cbv beta zeta. rewrite Hmo. simpl. eauto.
Qed.

Lemma season_series_total a el season s e :
  acc_ok a -> In season seasons -> exists pts, season_series a el season s e = Ok pts.
Proof.
  intros [_ Hs] Hin. apply mapM_total. intros y _.
  destruct (mean_of_total (seasonal_sum a) (seasonal_count a) (el, y, season)) as [mo Hmo];
    [apply Hs|].
  cbv beta zeta. rewrite Hmo. simpl.
  unfold seasons in Hin. repeat destruct Hin as [<-|Hin]; [..|destruct Hin]; cbn; eauto.
Qed.

Lemma year_series_years a el s e pts :
  year_series a el s e = Ok pts -> map year pts = zrange s (e + 1).
Proof.
  intros H. apply mapM_Ok in H.
  induction H as [|y p ys ps Hp _ IH]; simpl; [done|].
  apply bind_Ok in Hp as (mo & _ & Hp). injection Hp as <-. simpl. by f_equal.
Qed.

Lemma season_series_years a el season s e pts :
  season_series a el season s e = Ok pts -> map year pts = zrange s (e + 1).
Proof.
  intros H. apply mapM_Ok in H.
  induction H as [|y p ys ps Hp _ IH]; simpl; [done|].
  apply bind_Ok in Hp as (mo & _ & Hp). apply bind_Ok in Hp as (ed & _ & Hp).
  injection Hp as <-. simpl. by f_equal.
Qed.

(** The output of [compute_means] for [elements = {"TMIN", "TMAX"}]. *)
Lemma build_output_TT a s e out :
  build_output a s e ["TMIN"; "TMAX"]%string ∅ = Ok out ->
  exists y1 sp1 su1 au1 wi1 y2 sp2 su2 au2 wi2,
    year_series a "TMIN" s e = Ok y1 /\
    season_series a "TMIN" "spring" s e = Ok sp1 /\
    season_series a "TMIN" "summer" s e = Ok su1 /\
    season_series a "TMIN" "autumn" s e = Ok au1 /\
    season_series a "TMIN" "winter" s e = Ok wi1 /\
    year_series a "TMAX" s e = Ok y2 /\
    season_series a "TMAX" "spring" s e = Ok sp2 /\
    season_series a "TMAX" "summer" s e = Ok su2 /\
    season_series a "TMAX" "autumn" s e = Ok au2 /\
    season_series a "TMAX" "winter" s e = Ok wi2 /\
    out = <["tmax_winter" := wi2]> (<["tmax_autumn" := au2]> (<["tmax_summer" := su2]>
          (<["tmax_spring" := sp2]> (<["tmax_year" := y2]> (<["tmin_winter" := wi1]>
          (<["tmin_autumn" := au1]> (<["tmin_summer" := su1]> (<["tmin_spring" := sp1]>
          (<["tmin_year" := y1]> (∅ : gmap string (list MeanPoint)))))))))))%string.
Proof.
  intros H. cbn [build_output add_seasons seasons] in H.
  apply bind_Ok in H as (y1 & H1 & H).
  apply bind_Ok in H as (o1 & Ho1 & H).
  apply bind_Ok in H as (y2 & H2 & H).
  apply bind_Ok in H as (o2 & Ho2 & H).
  injection H as <-.
  apply bind_Ok in Ho1 as (sp1 & Hsp1 & Ho1).
  apply bind_Ok in Ho1 as (su1 & Hsu1 & Ho1).
  apply bind_Ok in Ho1 as (au1 & Hau1 & Ho1).
  apply bind_Ok in Ho1 as (wi1 & Hwi1 & Ho1).
  injection Ho1 as <-.
  apply bind_Ok in Ho2 as (sp2 & Hsp2 & Ho2).
  apply bind_Ok in Ho2 as (su2 & Hsu2 & Ho2).
  apply bind_Ok in Ho2 as (au2 & Hau2 & Ho2).
  apply bind_Ok in Ho2 as (wi2 & Hwi2 & Ho2).
  injection Ho2 as <-.
  exists y1, sp1, su1, au1, wi1, y2, sp2, su2, au2, wi2.
  repeat split; assumption.
Qed.

Lemma build_output_TT_total a s e :
  acc_ok a -> exists out, build_output a s e ["TMIN"; "TMAX"]%string ∅ = Ok out.
Proof.
  intros Ha. cbn [build_output add_seasons seasons].
  destruct (year_series_total a "TMIN" s e Ha) as [y1 ->]. simpl.
  destruct (season_series_total a "TMIN" "spring" s e Ha) as [p1 ->]; [simpl; tauto|]. simpl.
  destruct (season_series_total a "TMIN" "summer" s e Ha) as [p2 ->]; [simpl; tauto|]. simpl.
  destruct (season_series_total a "TMIN" "autumn" s e Ha) as [p3 ->]; [simpl; tauto|]. simpl.
  destruct (season_series_total a "TMIN" "winter" s e Ha) as [p4 ->]; [simpl; tauto|]. simpl.
  destruct (year_series_total a "TMAX" s e Ha) as [y2 ->]. simpl.
  destruct (season_series_total a "TMAX" "spring" s e Ha) as [q1 ->]; [simpl; tauto|]. simpl.
  destruct (season_series_total a "TMAX" "summer" s e Ha) as [q2 ->]; [simpl; tauto|]. simpl.
  destruct (season_series_total a "TMAX" "autumn" s e Ha) as [q3 ->]; [simpl; tauto|]. simpl.
  destruct (season_series_total a "TMAX" "winter" s e Ha) as [q4 ->]; [simpl; tauto|]. simpl.
  eauto.
Qed.

(** Every metric of [ALL_METRICS] is a key of the output, with one point per
    year of the range, in order. *)
Lemma compute_means_shape lines s e series :
  compute_means lines s e ["TMIN"; "TMAX"]%string = Ok series ->
  forall m, In m Cache.ALL_METRICS ->
  exists pts, series !! m = Some pts /\ map year pts = zrange s (e + 1).
Proof.
  unfold compute_means. intros H.
  apply bind_Ok in H as (a & _ & H).
  apply build_output_TT in H
    as (y1 & sp1 & su1 & au1 & wi1 & y2 & sp2 & su2 & au2 & wi2 &
        H1 & H2 & H3 & H4 & H5 & H6 & H7 & H8 & H9 & H10 & ->).
  intros m Hm. unfold Cache.ALL_METRICS in Hm.
  repeat destruct Hm as [<-|Hm]; [..|destruct Hm]; eexists;
    (split; [simplify_map_eq; reflexivity|]);
    first [eapply year_series_years; eassumption | eapply season_series_years; eassumption].
Qed.

(** [compute_means] raises only while reading the file. *)
Lemma compute_means_raise lines s e err :
  compute_means lines s e ["TMIN"; "TMAX"]%string = Raise err ->
  process_lines s e ["TMIN"; "TMAX"]%string empty_acc lines = Raise err.
Proof.
  unfold compute_means.
  destruct (process_lines _ _ _ _ _) as [a|e'] eqn:Hp; intros H; [|change (@Raise (gmap string (list MeanPoint)) e' = Raise err) in H; congruence].
  change (build_output a s e ["TMIN"; "TMAX"]%string ∅ = Raise err) in H.
  apply process_lines_ok in Hp; [|apply acc_ok_empty].
  destruct (build_output_TT_total a s e Hp) as [out Hout].
  rewrite Hout in H. discriminate.
Qed.

Lemma string_get_some (n : nat) (str : string) :
  (n < String.length str)%nat -> exists c, String.get n str = Some c.
Proof.
  revert n; induction str as [|c str IH]; intros n Hn; simpl in *; [lia|].
  destruct n as [|n]; [eauto|]. apply IH. lia.
Qed.

Lemma slot_fits_mono line d d' :
  slot_fits line d = false -> (1 <= d <= d')%nat -> slot_fits line d' = false.
Proof.
  unfold slot_fits, slot_base. intros H Hd.
  apply Nat.leb_gt in H. apply Nat.leb_gt. nia.
Qed.

Lemma filter_fits_none line d f :
  (1 <= d)%nat -> slot_fits line d = false ->
  List.filter (slot_fits line) (seq d f) = [].
Proof.
  revert d; induction f as [|f IH]; intros d Hd Hf; simpl; [done|].
  rewrite Hf. destruct f as [|f]; [done|].
  apply IH; [lia|]. apply (slot_fits_mono line d); [done|lia].
Qed.

Lemma slot_fits_iff line d :
  (1 <= d)%nat -> slot_fits line d = true <-> (d <= (String.length line - 21) / 8)%nat.
Proof.
  intros Hd. unfold slot_fits, slot_base. rewrite Nat.leb_le. split; intros H.
  - apply Nat.div_le_lower_bound; lia.
  - pose proof (Nat.Div0.mul_div_le (String.length line - 21) 8). nia.
Qed.

Lemma filter_fits_prefix line d f :
  (1 <= d)%nat ->
  List.filter (slot_fits line) (seq d f) =
  seq d (Nat.min f ((String.length line - 21) / 8 + 1 - d)).
Proof.
  revert d; induction f as [|f IH]; intros d Hd; [done|].
  destruct (slot_fits line d) eqn:Hfit.
  - cbn [seq List.filter]. rewrite Hfit, IH by lia.
    apply slot_fits_iff in Hfit; [|lia].
    replace ((String.length line - 21) / 8 + 1 - d)%nat
      with (S ((String.length line - 21) / 8 + 1 - S d)) by lia.
    reflexivity.
  - rewrite filter_fits_none by done.
    assert (Hn : ~ (d <= (String.length line - 21) / 8)%nat)
      by (rewrite <- slot_fits_iff by lia; congruence).
    replace ((String.length line - 21) / 8 + 1 - d)%nat with 0%nat by lia.
    rewrite Nat.min_0_r. reflexivity.
Qed.

Lemma slot_days_filter line :
  List.filter (slot_fits line) (seq 1 31) = slot_days line.
Proof.
  rewrite filter_fits_prefix by lia. unfold slot_days.
  f_equal. lia.
Qed.

(** The day loop, from day [d] with [f] days left, adds exactly the values
    of the valid slots, in day order. *)
Lemma day_loop_slots line s e el y m season f d a :
  (1 <= d)%nat -> 1 <= m <= 12 ->
  (forall d', In d' (List.filter (slot_fits line) (seq d f)) -> is_Some (slot_raw line d')) ->
  day_loop line s e el y m season f d a =
  Ok (foldl (fun a v => accumulate s e el y season v a) a
            (omap (spec_slot_value line y m) (List.filter (slot_fits line) (seq d f)))).
Proof.
  revert d a; induction f as [|f IH]; intros d a Hd Hm Hparse; [done|].
  cbn [day_loop seq List.filter].
  cbn [seq List.filter] in Hparse.
  destruct (slot_fits line d) eqn:Hfit.
  - assert (Hlen : (String.length line <? 21 + (d - 1) * 8 + 8)%nat = false).
    { unfold slot_fits, slot_base in Hfit. apply Nat.ltb_ge. apply Nat.leb_le in Hfit. lia. }
    rewrite Hlen.
    destruct (Hparse d (or_introl eq_refl)) as [raw Hraw].
    unfold slot_raw, slot_base in Hraw.
    destruct (string_get_some (21 + (d - 1) * 8 + 6) line) as [q Hq].
    { unfold slot_fits, slot_base in Hfit. apply Nat.leb_le in Hfit. lia. }
    unfold py_int, str_at. rewrite Hraw, Hq. cbn [mbind Exc_bind].
    assert (Hrest : forall d', In d' (List.filter (slot_fits line) (seq (S d) f)) ->
                               is_Some (slot_raw line d'))
      by (intros; apply Hparse; right; done).
    assert (Hv : spec_slot_value line y m d =
                 if spec_day_valid y m raw q d
                 then Some (PrimFloat.div (float_of_Z raw) ten_f) else None).
    { unfold spec_slot_value, slot_raw, slot_qflag, slot_base. rewrite Hraw, Hq. done. }
    cbn [omap list_omap]. rewrite Hv. unfold spec_day_valid.
    destruct ((raw =? -9999) || negb (Ascii.eqb q " ")) eqn:Hflag.
    + replace (negb (raw =? -9999) && Ascii.eqb q " ") with false
        by (destruct (raw =? -9999), (Ascii.eqb q " "); simpl in *; congruence).
      simpl. apply IH; [lia|done|done].
    + replace (negb (raw =? -9999) && Ascii.eqb q " ") with true
        by (destruct (raw =? -9999), (Ascii.eqb q " "); simpl in *; congruence).
      unfold monthrange_days.
      replace ((1 <=? m) && (m <=? 12)) with true by (symmetry; apply andb_true_intro; split; apply Z.leb_le; lia).
      simpl andb.
      destruct (Z.of_nat d >? days_in_month y m) eqn:Hday.
      * replace (Z.of_nat d <=? days_in_month y m) with false
          by (symmetry; apply Z.leb_gt; apply Z.gtb_lt in Hday; lia).
        apply IH; [lia|done|done].
      * replace (Z.of_nat d <=? days_in_month y m) with true
          by (symmetry; apply Z.leb_le; rewrite Z.gtb_ltb in Hday; apply Z.ltb_ge in Hday; lia).
        simpl. apply IH; [lia|done|done].
  - assert (Hlen : (String.length line <? 21 + (d - 1) * 8 + 8)%nat = true).
    { unfold slot_fits, slot_base in Hfit. apply Nat.ltb_lt. apply Nat.leb_gt in Hfit. lia. }
    rewrite Hlen. rewrite filter_fits_none; [done|lia|].
    apply (slot_fits_mono line d); [done|lia].
Qed.

(** The yearly entry of [(el, y)] after a run of samples of that element and
    year inside the range: the count grows by the number of samples and the
    sum is [sum.get(k, 0.0) + v1 + v2 + ...]. *)
Lemma foldl_accumulate_yearly s e el y season vals a :
  s <= y <= e ->
  yearly_count (foldl (fun a v => accumulate s e el y season v a) a vals) !! (el, y) =
    match vals with
    | [] => yearly_count a !! (el, y)
    | _ => Some (default 0 (yearly_count a !! (el, y)) + Z.of_nat (length vals))
    end /\
  yearly_sum (foldl (fun a v => accumulate s e el y season v a) a vals) !! (el, y) =
    match vals with
    | [] => yearly_sum a !! (el, y)
    | _ => Some (fold_left PrimFloat.add vals (default zero_f (yearly_sum a !! (el, y))))
    end.
Proof.
  intros Hy. revert a; induction vals as [|v vals IH]; intros a; [done|].
  cbn [foldl]. destruct (IH (accumulate s e el y season v a)) as [Hc Hs].
  rewrite Hc, Hs. clear Hc Hs.
  assert (Hin : (s <=? y) && (y <=? e) = true)
    by (apply andb_true_intro; split; apply Z.leb_le; lia).
  unfold accumulate. rewrite Hin.
  destruct season as [[sy sn]|]; [destruct ((s <=? sy) && (sy <=? e))|];
  simpl; rewrite !lookup_insert_eq; destruct vals; simpl; split; f_equal; lia.
Qed.

Lemma zrange_lookup a b i :
  (Z.of_nat i < b - a) -> zrange a b !! i = Some (a + Z.of_nat i).
Proof.
  intros Hi. unfold zrange. rewrite list_lookup_fmap, lookup_seq_lt; [done|lia].
Qed.

(** A line of a requested element whose header parses and whose year lies
    in [start_year - 1 .. end_year] goes through the whole day loop. *)
Lemma process_line_window s e els a line el y m :
  (21 <= String.length line)%nat ->
  parse_int (slice 11 15 line) = Some y ->
  parse_int (slice 15 17 line) = Some m ->
  slice 17 21 line = el ->
  existsb (String.eqb el) els = true ->
  s - 1 <= y <= e ->
  process_line s e els a line = day_loop line s e el y m (_season_key y m) 31 1 a.
Proof.
  intros Hlen Hy Hm Hel Hels Hw. unfold process_line.
  replace (String.length line <? 21)%nat with false by (symmetry; apply Nat.ltb_ge; lia).
  unfold py_int. rewrite Hy, Hm. cbn [mbind Exc_bind]. cbv zeta. rewrite Hel, Hels.
  replace ((y <? s - 1) || (e <? y)) with false
    by (symmetry; apply orb_false_intro; apply Z.ltb_ge; lia).
  reflexivity.
Qed.

(** With every present slot well formed, such a line adds exactly the
    values of [spec_included_values], in day order. *)
Lemma process_line_slots s e els a line el y m :
  (21 <= String.length line)%nat ->
  parse_int (slice 11 15 line) = Some y ->
  parse_int (slice 15 17 line) = Some m ->
  slice 17 21 line = el ->
  existsb (String.eqb el) els = true ->
  s - 1 <= y <= e ->
  1 <= m <= 12 ->
  slots_parse line = true ->
  process_line s e els a line =
  Ok (foldl (fun a v => accumulate s e el y (_season_key y m) v a) a
            (spec_included_values line y m)).
Proof.
  intros Hlen Hy Hm Hel Hels Hw Hm12 Hparse.
  rewrite (process_line_window s e els a line el y m); try done.
  rewrite day_loop_slots; [|lia|lia|].
  - rewrite slot_days_filter. reflexivity.
  - intros d' Hd'. unfold slots_parse in Hparse. rewrite forallb_forall in Hparse.
    rewrite slot_days_filter in Hd'.
    apply Hparse in Hd'. by apply bool_decide_eq_true in Hd'.
Qed.

(** The four dicts after one sample, field by field. *)
Lemma accumulate_fields s e el y season v a :
  let inr z := (s <=? z) && (z <=? e) in
  yearly_sum (accumulate s e el y season v a) =
    (if inr y then <[(el, y) := PrimFloat.add (default zero_f (yearly_sum a !! (el, y))) v]>
                     (yearly_sum a) else yearly_sum a) /\
  yearly_count (accumulate s e el y season v a) =
    (if inr y then <[(el, y) := default 0 (yearly_count a !! (el, y)) + 1]> (yearly_count a)
     else yearly_count a) /\
  seasonal_sum (accumulate s e el y season v a) =
    match season with
    | Some (sy, sn) =>
        if inr sy then <[(el, sy, sn) := PrimFloat.add (default zero_f (seasonal_sum a !! (el, sy, sn))) v]>
                         (seasonal_sum a) else seasonal_sum a
    | None => seasonal_sum a
    end /\
  seasonal_count (accumulate s e el y season v a) =
    match season with
    | Some (sy, sn) =>
        if inr sy then <[(el, sy, sn) := default 0 (seasonal_count a !! (el, sy, sn)) + 1]>
                         (seasonal_count a) else seasonal_count a
    | None => seasonal_count a
    end.
Proof.
  cbv zeta. unfold accumulate.
  destruct ((s <=? y) && (y <=? e));
  destruct season as [[sy sn]|]; try destruct ((s <=? sy) && (sy <=? e));
  repeat split.
Qed.

Lemma in_range_true s e z : s <= z <= e -> (s <=? z) && (z <=? e) = true.
Proof. intros. apply andb_true_intro; split; apply Z.leb_le; lia. Qed.

Lemma in_range_false s e z : (s <=? z) && (z <=? e) = false -> ~ (s <= z <= e).
Proof. intros H Hz. rewrite in_range_true in H by done. discriminate. Qed.

(** A line whose header parses but whose year lies outside
    [start_year - 1 .. end_year] leaves the dicts as they are. *)
Lemma process_line_outside s e els a line y m :
  (21 <= String.length line)%nat ->
  parse_int (slice 11 15 line) = Some y ->
  parse_int (slice 15 17 line) = Some m ->
  y < s - 1 \/ e < y ->
  process_line s e els a line = Ok a.
Proof.
  intros Hlen Hy Hm Hout. unfold process_line.
  replace (String.length line <? 21)%nat with false by (symmetry; apply Nat.ltb_ge; lia).
  unfold py_int. rewrite Hy, Hm. cbn [mbind Exc_bind]. cbv zeta.
  destruct (negb (existsb (String.eqb (slice 17 21 line)) els)); [done|].
  replace ((y <? s - 1) || (e <? y)) with true
    by (symmetry; apply orb_true_iff; destruct Hout; [left|right]; apply Z.ltb_lt; lia).
  reflexivity.
Qed.

Lemma season_key_december y : _season_key y 12 = Some (y + 1, "winter"%string).
Proof. reflexivity. Qed.

(** A run of samples whose year is outside the range and whose bucket is
    [(sy, sn)] inside it: the yearly dicts stay, the seasonal dicts change
    at [(el, sy, sn)] only, whose count grows by the number of samples. *)
Lemma foldl_accumulate_bucket_only s e el y sy sn vals a :
  ~ (s <= y <= e) -> s <= sy <= e ->
  let a' := foldl (fun a v => accumulate s e el y (Some (sy, sn)) v a) a vals in
  yearly_sum a' = yearly_sum a /\ yearly_count a' = yearly_count a /\
  (forall k, k <> (el, sy, sn) ->
     seasonal_sum a' !! k = seasonal_sum a !! k /\
     seasonal_count a' !! k = seasonal_count a !! k) /\
  seasonal_count a' !! (el, sy, sn) =
    match vals with
    | [] => seasonal_count a !! (el, sy, sn)
    | _ => Some (default 0 (seasonal_count a !! (el, sy, sn)) + Z.of_nat (length vals))
    end.
Proof.
  intros Hy Hsy. cbv zeta. revert a; induction vals as [|v vals IH]; intros a; [done|].
  cbn [foldl]. destruct (IH (accumulate s e el y (Some (sy, sn)) v a)) as (H1 & H2 & H3 & H4).
  destruct (accumulate_fields s e el y (Some (sy, sn)) v a) as (F1 & F2 & F3 & F4).
  cbv zeta in F1, F2, F3, F4.
  destruct ((s <=? y) && (y <=? e)) eqn:Ey; [exfalso; apply Hy; apply andb_true_iff in Ey as [Ha Hb]; apply Z.leb_le in Ha, Hb; lia|].
  rewrite in_range_true in F3, F4 by done.
  rewrite H1, H2, F1, F2. do 2 (split; [done|]). split.
  - intros k Hk. destruct (H3 k Hk) as [-> ->]. rewrite F3, F4.
    rewrite !lookup_insert_ne by congruence. done.
  - rewrite H4, F4, lookup_insert_eq. destruct vals; cbn [length default id]; f_equal; unfold id; lia.
Qed.

Lemma process_lines_app s e els a pre rest :
  process_lines s e els a (pre ++ rest) =
  (a' ← process_lines s e els a pre; process_lines s e els a' rest).
Proof.
  revert a; induction pre as [|line pre IH]; intros a; [done|].
  cbn [app process_lines]. destruct (process_line s e els a line) as [a1|err]; [|done].
  exact (IH a1).
Qed.

(** An exception raised by a line, after the lines before it went through,
    is the result of the whole file. *)
Lemma compute_means_abort s e els pre line post a0 err :
  process_lines s e els empty_acc pre = Ok a0 ->
  process_line s e els a0 line = Raise err ->
  compute_means (pre ++ line :: post) s e els = Raise err.
Proof.
  intros H1 H2. unfold compute_means. rewrite process_lines_app, H1.
  cbn [mbind Exc_bind process_lines]. rewrite H2. reflexivity.
Qed.

Lemma process_line_year_bad s e els a line :
  (21 <= String.length line)%nat ->
  parse_int (slice 11 15 line) = None ->
  process_line s e els a line = Raise ValueError.
Proof.
  intros Hlen Hy. unfold process_line.
  replace (String.length line <? 21)%nat with false by (symmetry; apply Nat.ltb_ge; lia).
  unfold py_int. rewrite Hy. reflexivity.
Qed.

Lemma process_line_month_bad s e els a line y :
  (21 <= String.length line)%nat ->
  parse_int (slice 11 15 line) = Some y ->
  parse_int (slice 15 17 line) = None ->
  process_line s e els a line = Raise ValueError.
Proof.
  intros Hlen Hy Hm. unfold process_line.
  replace (String.length line <? 21)%nat with false by (symmetry; apply Nat.ltb_ge; lia).
  unfold py_int. rewrite Hy, Hm. reflexivity.
Qed.

(** A line whose element is not requested is skipped once its header
    parses, whatever its day fields hold. *)
Lemma process_line_unrequested s e els a line y m :
  (21 <= String.length line)%nat ->
  parse_int (slice 11 15 line) = Some y ->
  parse_int (slice 15 17 line) = Some m ->
  existsb (String.eqb (slice 17 21 line)) els = false ->
  process_line s e els a line = Ok a.
Proof.
  intros Hlen Hy Hm Hel. unfold process_line.
  replace (String.length line <? 21)%nat with false by (symmetry; apply Nat.ltb_ge; lia).
  unfold py_int. rewrite Hy, Hm. cbn [mbind Exc_bind]. cbv zeta. rewrite Hel.
  reflexivity.
Qed.

(** Where a line can raise: in its year field, in its month field, or in
    the day loop of a requested element with its year in the window. *)
Lemma process_line_raise_cases s e els a line err :
  process_line s e els a line = Raise err ->
  (21 <= String.length line)%nat /\
  (parse_int (slice 11 15 line) = None \/
   (exists y, parse_int (slice 11 15 line) = Some y) /\ parse_int (slice 15 17 line) = None \/
   existsb (String.eqb (slice 17 21 line)) els = true /\
   exists y m, parse_int (slice 11 15 line) = Some y /\
               parse_int (slice 15 17 line) = Some m /\ s - 1 <= y <= e).
Proof.
  unfold process_line. intros H.
  destruct (String.length line <? 21)%nat eqn:Hlen; [discriminate|].
  apply Nat.ltb_ge in Hlen. split; [lia|].
  unfold py_int in H.
  destruct (parse_int (slice 11 15 line)) as [y|] eqn:Hy; [|by left].
  destruct (parse_int (slice 15 17 line)) as [m|] eqn:Hm; [|right; left; eauto].
  right; right. cbn [mbind Exc_bind] in H. cbv zeta in H.
  destruct (existsb (String.eqb (slice 17 21 line)) els) eqn:Hel; [|discriminate].
  split; [done|]. exists y, m. do 2 (split; [done|]).
  destruct ((y <? s - 1) || (e <? y)) eqn:Hw; [discriminate|].
  apply orb_false_iff in Hw as [W1 W2]. apply Z.ltb_ge in W1, W2. lia.
Qed.



End AggFacts.

(* ================================================================== *)
(** * The record parser and the aggregator *)

Module ParserClaims.
Import AggFacts.

(** C1: for a parsed line of a requested element, of a valid month and of a
    year inside the range, a day slot is left out of the aggregation exactly
    when its raw value is -9999, its quality flag is non-blank, or its day
    number exceeds the days of that (year, month) ([spec_included_values]);
    the yearly point of that year counts the remaining days and its value is
    the mean of their raw values divided by 10 ([spec_mean]), both computed in
    the code's binary64 arithmetic. *)
Theorem day_exclusion_and_mean (line el : string) (y m s e : Z) :
  (21 <= String.length line)%nat ->
  parse_int (slice 11 15 line) = Some y ->
  parse_int (slice 15 17 line) = Some m ->
  slice 17 21 line = el ->
  el = "TMIN"%string \/ el = "TMAX"%string ->
  1 <= m <= 12 ->
  s <= y <= e ->
  slots_parse line = true ->
  exists out pts p,
    compute_means [line] s e ["TMIN"; "TMAX"]%string = Ok out /\
    out !! (lower el ++ "_year")%string = Some pts /\
    pts !! Z.to_nat (y - s) = Some p /\
    year p = y /\
    present_days p = Z.of_nat (length (spec_included_values line y m)) /\
    value_c p = spec_mean (spec_included_values line y m).
Proof.
  intros Hlen Hy Hm Hel Hels Hm12 Hys Hparse.
  assert (Hpl : process_line s e ["TMIN"; "TMAX"]%string empty_acc line =
                Ok (foldl (fun a v => accumulate s e el y (_season_key y m) v a) empty_acc
                          (spec_included_values line y m))).
  { apply (process_line_slots s e _ empty_acc line el y m); try done; [|lia].
    destruct Hels as [-> | ->]; reflexivity. }
  remember (foldl (fun a v => accumulate s e el y (_season_key y m) v a) empty_acc
                  (spec_included_values line y m)) as a eqn:Ha.
  assert (Ha_ok : acc_ok a) by (subst a; apply foldl_accumulate_ok, acc_ok_empty).
  destruct (build_output_TT_total a s e Ha_ok) as [out Hout].
  assert (Hcm : compute_means [line] s e ["TMIN"; "TMAX"]%string = Ok out).
  { unfold compute_means. cbn [process_lines]. rewrite Hpl. exact Hout. }
  pose proof (build_output_TT _ _ _ _ Hout)
    as (y1 & sp1 & su1 & au1 & wi1 & y2 & sp2 & su2 & au2 & wi2 &
        H1 & _ & _ & _ & _ & H6 & _ & _ & _ & _ & Hout').
  assert (Hser : exists pts, year_series a el s e = Ok pts /\
                             out !! (lower el ++ "_year")%string = Some pts).
  { rewrite Hout'. destruct Hels as [-> | ->].
    - exists y1. split; [done|].
      change (lower "TMIN" ++ "_year")%string with "tmin_year"%string.
      simplify_map_eq. reflexivity.
    - exists y2. split; [done|].
      change (lower "TMAX" ++ "_year")%string with "tmax_year"%string.
      simplify_map_eq. reflexivity. }
  destruct Hser as (pts & Hpts & Hlk).
  apply mapM_Ok in Hpts.
  destruct (Forall2_lookup_l _ _ _ (Z.to_nat (y - s)) y Hpts) as (p & Hp & Hfp).
  { rewrite zrange_lookup; [f_equal; lia|lia]. }
  exists out, pts, p. do 3 (split; [done|]).
  cbv beta zeta in Hfp. apply bind_Ok in Hfp as (mo & Hmo & Hfp). injection Hfp as <-.
  cbn [year value_c present_days].
  split; [lia|].
  destruct (foldl_accumulate_yearly s e el y (_season_key y m)
              (spec_included_values line y m) empty_acc Hys) as [Hc Hs].
  rewrite <- Ha in Hc, Hs.
  assert (E1 : yearly_count empty_acc !! (el, y) = None) by apply lookup_empty.
  assert (E2 : yearly_sum empty_acc !! (el, y) = None) by apply lookup_empty.
  rewrite E1 in Hc. rewrite E2 in Hs.
  unfold mean_of in Hmo. rewrite Hc in Hmo |- *. rewrite Hs in Hmo.
  destruct (spec_included_values line y m) as [|v vs].
  - injection Hmo as <-. split; reflexivity.
  - cbn [default] in Hmo |- *.
    replace (0 + Z.of_nat (length (v :: vs)) =? 0) with false in Hmo
      by (symmetry; apply Z.eqb_neq; simpl; lia).
    injection Hmo as <-. rewrite Z.add_0_l. split; [reflexivity|].
    unfold spec_mean. reflexivity.
Qed.

(** At the sample line: days 1 and 2 are kept, day 3 (-9999) and day 4
    (flag [X]) are dropped, and the yearly TMAX point of 2020 has two days
    and mean 15.0. *)
Lemma day_exclusion_and_mean_witness :
  spec_included_values ex_line 2020 1 = [10%float; 20%float] /\
  spec_mean (spec_included_values ex_line 2020 1) = Some 15%float /\
  exists out pts p,
    compute_means [ex_line] 2020 2020 ["TMIN"; "TMAX"]%string = Ok out /\
    out !! (lower "TMAX" ++ "_year")%string = Some pts /\
    pts !! Z.to_nat (2020 - 2020) = Some p /\
    year p = 2020 /\
    present_days p = Z.of_nat (length (spec_included_values ex_line 2020 1)) /\
    value_c p = spec_mean (spec_included_values ex_line 2020 1).
Proof.
  split; [vm_compute; reflexivity|].
  split; [vm_compute; reflexivity|].
  apply (day_exclusion_and_mean ex_line "TMAX" 2020 1 2020 2020);
    first [vm_compute; reflexivity | right; reflexivity | vm_compute; lia | lia].
Defined.

End ParserClaims.

(* ================================================================== *)
(** * The scan window and the accumulator keys *)

Module WindowClaims.
Import AggFacts.

(** C4: with [start_year <= end_year]: (1) a line whose header parses and
    whose year lies outside [start_year - 1 .. end_year] changes nothing,
    while (2) a line of a requested element with its year inside that window
    goes through the day loop; (3) one valid sample changes a yearly entry
    only at its own key [(el, y)] and only when [y] is in the range, and does
    change it then; (4) it changes a seasonal entry only at its bucket key and
    only when the bucket year is in the range, and does change it then;
    (5) a December line of [start_year - 1] leaves the yearly dicts as they
    are and changes the seasonal dicts only at [(el, start_year, winter)],
    whose count grows by its number of valid days. *)
Theorem scan_window_and_buckets (s e : Z) :
  s <= e ->
  (forall els a line y m,
     (21 <= String.length line)%nat ->
     parse_int (slice 11 15 line) = Some y ->
     parse_int (slice 15 17 line) = Some m ->
     y < s - 1 \/ e < y ->
     process_line s e els a line = Ok a) /\
  (forall els a line el y m,
     (21 <= String.length line)%nat ->
     parse_int (slice 11 15 line) = Some y ->
     parse_int (slice 15 17 line) = Some m ->
     slice 17 21 line = el ->
     existsb (String.eqb el) els = true ->
     s - 1 <= y <= e ->
     process_line s e els a line = day_loop line s e el y m (_season_key y m) 31 1 a) /\
  (forall el y season v a k,
     (yearly_sum (accumulate s e el y season v a) !! k <> yearly_sum a !! k \/
      yearly_count (accumulate s e el y season v a) !! k <> yearly_count a !! k) ->
     k = (el, y) /\ s <= y <= e) /\
  (forall el y season v a,
     s <= y <= e ->
     yearly_count (accumulate s e el y season v a) !! (el, y) =
       Some (default 0 (yearly_count a !! (el, y)) + 1)) /\
  (forall el y sy sn v a k,
     (seasonal_sum (accumulate s e el y (Some (sy, sn)) v a) !! k <> seasonal_sum a !! k \/
      seasonal_count (accumulate s e el y (Some (sy, sn)) v a) !! k <> seasonal_count a !! k) ->
     k = (el, sy, sn) /\ s <= sy <= e) /\
  (forall el y sy sn v a,
     s <= sy <= e ->
     seasonal_count (accumulate s e el y (Some (sy, sn)) v a) !! (el, sy, sn) =
       Some (default 0 (seasonal_count a !! (el, sy, sn)) + 1)) /\
  (forall els a line el,
     (21 <= String.length line)%nat ->
     parse_int (slice 11 15 line) = Some (s - 1) ->
     parse_int (slice 15 17 line) = Some 12 ->
     slice 17 21 line = el ->
     existsb (String.eqb el) els = true ->
     slots_parse line = true ->
     exists a',
       process_line s e els a line = Ok a' /\
       yearly_sum a' = yearly_sum a /\ yearly_count a' = yearly_count a /\
       (forall k, k <> (el, s, "winter"%string) ->
          seasonal_sum a' !! k = seasonal_sum a !! k /\
          seasonal_count a' !! k = seasonal_count a !! k) /\
       seasonal_count a' !! (el, s, "winter"%string) =
         match spec_included_values line (s - 1) 12 with
         | [] => seasonal_count a !! (el, s, "winter"%string)
         | _ => Some (default 0 (seasonal_count a !! (el, s, "winter"%string))
                      + Z.of_nat (length (spec_included_values line (s - 1) 12)))
         end).
Proof.
  intros Hse. split; [|split; [|split; [|split; [|split; [|split]]]]].
  - intros els a line y m Hlen Hy Hm Hout. by apply (process_line_outside s e els a line y m).
  - intros els a line el y m Hlen Hy Hm Hel Hels Hw.
    by apply process_line_window.
  - intros el y season v a k Hk.
    destruct (accumulate_fields s e el y season v a) as (F1 & F2 & _ & _). cbv zeta in F1, F2.
    rewrite F1, F2 in Hk.
    destruct ((s <=? y) && (y <=? e)) eqn:Ey; [|destruct Hk as [Hk|Hk]; congruence].
    apply andb_true_iff in Ey as [E1 E2]. apply Z.leb_le in E1, E2.
    split; [|lia].
    destruct (decide (k = (el, y))) as [->|Hne]; [done|].
    rewrite !lookup_insert_ne in Hk by congruence. destruct Hk; congruence.
  - intros el y season v a Hy.
    destruct (accumulate_fields s e el y season v a) as (_ & F2 & _ & _). cbv zeta in F2.
    rewrite F2, in_range_true by done. by rewrite lookup_insert_eq.
  - intros el y sy sn v a k Hk.
    destruct (accumulate_fields s e el y (Some (sy, sn)) v a) as (_ & _ & F3 & F4).
    cbv zeta in F3, F4. rewrite F3, F4 in Hk.
    destruct ((s <=? sy) && (sy <=? e)) eqn:Ey; [|destruct Hk as [Hk|Hk]; congruence].
    apply andb_true_iff in Ey as [E1 E2]. apply Z.leb_le in E1, E2.
    split; [|lia].
    destruct (decide (k = (el, sy, sn))) as [->|Hne]; [done|].
    rewrite !lookup_insert_ne in Hk by congruence. destruct Hk; congruence.
  - intros el y sy sn v a Hsy.
    destruct (accumulate_fields s e el y (Some (sy, sn)) v a) as (_ & _ & _ & F4). cbv zeta in F4.
    rewrite F4, in_range_true by done. by rewrite lookup_insert_eq.
  - intros els a line el Hlen Hy Hm Hel Hels Hparse.
    rewrite (process_line_slots s e els a line el (s - 1) 12) by (done || lia).
    rewrite season_key_december. replace (s - 1 + 1) with s by lia.
    pose proof (foldl_accumulate_bucket_only s e el (s - 1) s "winter"%string
                  (spec_included_values line (s - 1) 12) a ltac:(lia) ltac:(lia)) as HB.
    cbv zeta in HB. eexists. split; [reflexivity|]. exact HB.
Qed.

(** At [start_year = end_year = 2020]; the sample December 2019 line adds
    its one day to the 2020 winter bucket of TMAX and to nothing else. *)
Lemma scan_window_and_buckets_witness :
  (exists a', process_line 2020 2020 ["TMAX"]%string empty_acc dec_line = Ok a' /\
     yearly_count a' = ∅ /\
     seasonal_count a' = {[("TMAX", 2020, "winter")%string := 1]}) /\
  2020 <= 2020 /\
  (forall els a line y m,
     (21 <= String.length line)%nat ->
     parse_int (slice 11 15 line) = Some y ->
     parse_int (slice 15 17 line) = Some m ->
     y < 2020 - 1 \/ 2020 < y ->
     process_line 2020 2020 els a line = Ok a) /\
  (forall els a line el y m,
     (21 <= String.length line)%nat ->
     parse_int (slice 11 15 line) = Some y ->
     parse_int (slice 15 17 line) = Some m ->
     slice 17 21 line = el ->
     existsb (String.eqb el) els = true ->
     2020 - 1 <= y <= 2020 ->
     process_line 2020 2020 els a line = day_loop line 2020 2020 el y m (_season_key y m) 31 1 a).
Proof.
  split; [eexists; split; [vm_compute; reflexivity|]; split; vm_compute; reflexivity|].
  split; [lia|].
  destruct (scan_window_and_buckets 2020 2020 ltac:(lia)) as (P1 & P2 & _).
  split; [exact P1 | exact P2].
Defined.

End WindowClaims.

(* ================================================================== *)
(** * Malformed fields *)

Module ParseErrorClaims.
Import AggFacts.

(** C10: for a line of at least 21 characters, the year and month fields are
    parsed before the element is looked at: once the lines before it went
    through, a non-numeric year, or a numeric year with a non-numeric month,
    makes [compute_means] raise [ValueError] whatever the requested elements
    are; and a line can raise only in those two fields or when its element is
    requested and its year lies in [start_year - 1 .. end_year] (the only
    lines whose day fields are parsed). *)
Theorem header_parsed_before_filter (s e : Z) (els : list string) (line : string) :
  (21 <= String.length line)%nat ->
  (forall pre post a0,
     process_lines s e els empty_acc pre = Ok a0 ->
     parse_int (slice 11 15 line) = None ->
     compute_means (pre ++ line :: post) s e els = Raise ValueError) /\
  (forall pre post a0 y,
     process_lines s e els empty_acc pre = Ok a0 ->
     parse_int (slice 11 15 line) = Some y ->
     parse_int (slice 15 17 line) = None ->
     compute_means (pre ++ line :: post) s e els = Raise ValueError) /\
  (forall a err,
     process_line s e els a line = Raise err ->
     parse_int (slice 11 15 line) = None \/
     parse_int (slice 15 17 line) = None \/
     (existsb (String.eqb (slice 17 21 line)) els = true /\
      exists y, parse_int (slice 11 15 line) = Some y /\ s - 1 <= y <= e)).
Proof.
  intros Hlen. split; [|split].
  - intros pre post a0 Hpre Hy. apply (compute_means_abort s e els pre line post a0); [done|].
    by apply process_line_year_bad.
  - intros pre post a0 y Hpre Hy Hm. apply (compute_means_abort s e els pre line post a0); [done|].
    by apply (process_line_month_bad s e els a0 line y).
  - intros a err H. apply process_line_raise_cases in H as (_ & [H | [[_ H] | (Hel & y & m & Hy & _ & Hw)]]).
    + by left.
    + by right; left.
    + right; right. split; [done|]. eauto.
Qed.

(** The sample PRCP line with a bad year aborts a TMIN/TMAX run. *)
Lemma header_parsed_before_filter_witness :
  compute_means [bad_year_line] 2020 2020 ["TMIN"; "TMAX"]%string = Raise ValueError.
Proof.
  destruct (header_parsed_before_filter 2020 2020 ["TMIN"; "TMAX"]%string bad_year_line
              ltac:(vm_compute; lia)) as (P1 & _).
  exact (P1 [] [] empty_acc eq_refl ltac:(vm_compute; reflexivity)).
Defined.




End ParseErrorClaims.

(* ================================================================== *)
(** * Facts on the cache writes and reads *)

Module CacheFacts.
Import AggFacts Cache.

Lemma write_rows_app l1 l2 db : write_rows (l1 ++ l2) db = write_rows l2 (write_rows l1 db).
Proof. unfold write_rows. apply foldl_app. Qed.

Lemma write_rows_cons k v l db : write_rows ((k, v) :: l) db = write_rows l (<[k := v]> db).
Proof. reflexivity. Qed.

Lemma write_rows_notin l db k : k ∉ l.*1 -> write_rows l db !! k = db !! k.
Proof.
  revert db; induction l as [|[k' v] l IH]; intros db Hk; [done|].
  rewrite write_rows_cons.
  rewrite fmap_cons, elem_of_cons in Hk. cbn [fst] in Hk.
  rewrite IH by tauto. rewrite lookup_insert_ne; [done|]. intros ->. tauto.
Qed.

Lemma write_rows_in l db k v : NoDup l.*1 -> (k, v) ∈ l -> write_rows l db !! k = Some v.
Proof.
  revert db; induction l as [|[k' v'] l IH]; intros db Hnd Hin; [by apply elem_of_nil in Hin|].
  rewrite write_rows_cons.
  rewrite fmap_cons in Hnd. apply NoDup_cons in Hnd as [Hk' Hnd]. cbn [fst] in Hk'.
  apply elem_of_cons in Hin as [Heq | Hin].
  - injection Heq as -> ->. rewrite write_rows_notin by done. by rewrite lookup_insert_eq.
  - by apply IH.
Qed.

Lemma exec_points_ok_inv fail_at n now st sha metric pts pending n' pending' :
  exec_points fail_at n now st sha metric pts pending = (n', Ok pending') ->
  pending' = write_rows (points_rows now st sha metric pts) pending.
Proof.
  revert n pending; induction pts as [|p pts IH]; intros n pending H; cbn [exec_points] in H.
  - by injection H as _ <-.
  - destruct (stmt_fails fail_at n); [discriminate|]. apply IH in H. exact H.
Qed.

Lemma exec_points_ok n now st sha metric pts pending :
  exists n', exec_points None n now st sha metric pts pending =
             (n', Ok (write_rows (points_rows now st sha metric pts) pending)).
Proof.
  revert n pending; induction pts as [|p pts IH]; intros n pending; [by exists n|].
  cbn [exec_points]. unfold stmt_fails at 1. rewrite bool_decide_eq_false_2 by done.
  apply IH.
Qed.

Lemma run_rows_cons now st sha series m ms :
  run_rows now st sha series (m :: ms) =
  points_rows now st sha m (default [] (series !! m)) ++ run_rows now st sha series ms.
Proof. reflexivity. Qed.

Lemma exec_metrics_ok_inv fail_at n now st sha series ms pending n' pending' :
  exec_metrics fail_at n now st sha series ms pending = (n', Ok pending') ->
  pending' = write_rows (run_rows now st sha series ms) pending /\
  Forall (fun m => is_Some (series !! m)) ms.
Proof.
  revert n pending; induction ms as [|m ms IH]; intros n pending H; cbn [exec_metrics] in H.
  - by injection H as _ <-.
  - destruct (series !! m) as [pts|] eqn:Hm; [|discriminate].
    destruct (exec_points fail_at n now st sha m pts pending) as [n1 [p1|e1]] eqn:He;
      [|discriminate].
    apply exec_points_ok_inv in He as ->. apply IH in H as [-> Hall].
    split; [|constructor; [by eexists|done]].
    rewrite run_rows_cons, write_rows_app, Hm. reflexivity.
Qed.

Lemma exec_metrics_ok n now st sha series ms pending :
  Forall (fun m => is_Some (series !! m)) ms ->
  exists n', exec_metrics None n now st sha series ms pending =
             (n', Ok (write_rows (run_rows now st sha series ms) pending)).
Proof.
  revert n pending; induction ms as [|m ms IH]; intros n pending Hall; [by exists n|].
  apply Forall_cons in Hall as [[pts Hm] Hall].
  cbn [exec_metrics]. rewrite Hm.
  destruct (exec_points_ok n now st sha m pts pending) as [n1 ->].
  destruct (IH n1 (write_rows (points_rows now st sha m pts) pending) Hall) as [n2 ->].
  exists n2. rewrite run_rows_cons, write_rows_app, Hm. reflexivity.
Qed.

Lemma map_is_fmap {A B} (f : A -> B) (l : list A) : map f l = f <$> l.
Proof. induction l as [|x l IH]; [done|]. cbn. by rewrite IH. Qed.

Lemma zrange_elem y a b : y ∈ zrange a b <-> a <= y < b.
Proof.
  rewrite list_elem_of_In. unfold zrange. rewrite in_map_iff. split.
  - intros (i & <- & Hi). apply in_seq in Hi. lia.
  - intros H. exists (Z.to_nat (y - a)). split; [lia|]. apply in_seq. lia.
Qed.

Lemma zrange_NoDup a b : NoDup (zrange a b).
Proof.
  unfold zrange. rewrite map_is_fmap. apply NoDup_fmap_2; [intros i j ?; lia|].
  apply NoDup_seq.
Qed.

Lemma length_zrange a b : length (zrange a b) = Z.to_nat (b - a).
Proof. unfold zrange. by rewrite length_map, length_seq. Qed.

Lemma run_keys_NoDup st ms ys : NoDup ms -> NoDup ys -> NoDup (run_keys st ms ys).
Proof.
  intros Hms Hys. induction Hms as [|m ms Hm Hms IH]; [constructor|].
  unfold run_keys. cbn [map concat]. apply NoDup_app. split; [|split; [|exact IH]].
  - rewrite map_is_fmap. apply NoDup_fmap_2; [intros y1 y2 H; by injection H|done].
  - intros k Hk Hk'. rewrite list_elem_of_In, in_map_iff in Hk. destruct Hk as (y & <- & _).
    rewrite list_elem_of_In, in_concat in Hk'. destruct Hk' as (l & Hl & Hk).
    rewrite in_map_iff in Hl. destruct Hl as (m' & <- & Hm').
    rewrite in_map_iff in Hk. destruct Hk as (y' & Heq & _). injection Heq as -> _.
    apply Hm. by apply list_elem_of_In.
Qed.

Lemma length_run_keys st ms ys : length (run_keys st ms ys) = (length ms * length ys)%nat.
Proof.
  unfold run_keys. induction ms as [|m ms IH]; [done|].
  cbn [map concat]. rewrite length_app, length_map, IH. cbn. lia.
Qed.

Lemma elem_of_run_keys k st ms ys :
  k ∈ run_keys st ms ys <-> exists m y, k = (st, m, y) /\ m ∈ ms /\ y ∈ ys.
Proof.
  unfold run_keys. rewrite list_elem_of_In, in_concat. split.
  - intros (l & Hl & Hk). rewrite in_map_iff in Hl. destruct Hl as (m & <- & Hm).
    rewrite in_map_iff in Hk. destruct Hk as (y & <- & Hy).
    exists m, y. split; [done|]. split; by apply list_elem_of_In.
  - intros (m & y & -> & Hm & Hy). apply list_elem_of_In in Hm, Hy.
    exists (map (fun y => (st, m, y)) ys). split.
    + apply in_map_iff. exists m. done.
    + apply in_map_iff. exists y. done.
Qed.

Lemma ALL_METRICS_NoDup : NoDup ALL_METRICS.
Proof. unfold ALL_METRICS. repeat constructor; set_solver. Qed.

Lemma length_ALL_METRICS : length ALL_METRICS = 10%nat.
Proof. reflexivity. Qed.

(** For the series of [compute_means], the rows of a run have the keys
    [(st, metric, y)] for the ten metrics and the years of the range. *)
Lemma run_rows_keys lines s e series now st sha :
  compute_means lines s e ["TMIN"; "TMAX"]%string = Ok series ->
  (run_rows now st sha series ALL_METRICS).*1 = run_keys st ALL_METRICS (zrange s (e + 1)).
Proof.
  intros Hcm. pose proof (compute_means_shape lines s e series Hcm) as Hsh.
  unfold run_rows, run_keys.
  assert (Hsub : forall ms, (forall m, In m ms -> In m ALL_METRICS) ->
    (concat (map (fun metric =>
       map (fun p => ((st, metric, year p),
                      mkRow sha (value_c p) (present_days p) (expected_days p) now))
           (default [] (series !! metric))) ms)).*1 =
    concat (map (fun m => map (fun y => (st, m, y)) (zrange s (e + 1))) ms)).
  { induction ms as [|m ms IH]; intros Hms; [done|].
    cbn [map concat]. rewrite fmap_app, IH by (intros; apply Hms; by right).
    f_equal. destruct (Hsh m (Hms m (or_introl eq_refl))) as (pts & -> & Hy).
    cbn [default]. rewrite <- Hy, map_map, !map_is_fmap, <- list_fmap_compose.
    reflexivity. }
  apply Hsub. done.
Qed.

Lemma run_rows_NoDup lines s e series now st sha :
  compute_means lines s e ["TMIN"; "TMAX"]%string = Ok series ->
  NoDup (run_rows now st sha series ALL_METRICS).*1.
Proof.
  intros Hcm. rewrite (run_rows_keys lines s e series now st sha Hcm).
  apply run_keys_NoDup; [apply ALL_METRICS_NoDup | apply zrange_NoDup].
Qed.

Lemma run_rows_all_present lines s e series :
  compute_means lines s e ["TMIN"; "TMAX"]%string = Ok series ->
  Forall (fun m => is_Some (series !! m)) ALL_METRICS.
Proof.
  intros Hcm. apply Forall_forall. intros m Hm.
  destruct (compute_means_shape lines s e series Hcm m) as (pts & -> & _); [|by eexists].
  by apply list_elem_of_In.
Qed.

Lemma run_rows_sha now st sha series ms k r :
  (k, r) ∈ run_rows now st sha series ms -> row_sha256 r = sha /\ row_computed_at r = now.
Proof.
  unfold run_rows. rewrite list_elem_of_In, in_concat. intros (l & Hl & Hk).
  rewrite in_map_iff in Hl. destruct Hl as (m & <- & _).
  rewrite in_map_iff in Hk. destruct Hk as (p & Heq & _). injection Heq as _ <-. done.
Qed.

Lemma in_run_rows now st sha series ms m pts p :
  m ∈ ms -> series !! m = Some pts -> p ∈ pts ->
  ((st, m, year p), mkRow sha (value_c p) (present_days p) (expected_days p) now)
    ∈ run_rows now st sha series ms.
Proof.
  intros Hm Hpts Hp. unfold run_rows. rewrite list_elem_of_In, in_concat.
  apply list_elem_of_In in Hm, Hp.
  eexists. split; [apply in_map_iff; exists m; split; [reflexivity|done]|].
  rewrite Hpts. cbn [default]. apply in_map_iff. eauto.
Qed.

Lemma count_rows_lower db st sha s e (K : list (string * string * Z)) :
  NoDup K ->
  (forall k, k ∈ K -> exists m y r, k = (st, m, y) /\ s <= y <= e /\
                                    db !! k = Some r /\ row_sha256 r = sha) ->
  Z.of_nat (length K) <= count_rows db st sha s e.
Proof.
  intros HK Hin. unfold count_rows. apply Nat2Z.inj_le.
  rewrite <- (length_map fst (List.filter _ _)).
  apply NoDup_incl_length; [by apply NoDup_ListNoDup|].
  intros k Hk. apply list_elem_of_In in Hk.
  destruct (Hin k Hk) as (m & y & r & -> & Hy & Hdb & Hsha).
  apply in_map_iff. exists ((st, m, y), r). split; [done|].
  apply filter_In. split.
  - apply list_elem_of_In. by apply elem_of_map_to_list.
  - cbn. rewrite Hsha, !String.eqb_refl.
    replace (s <=? y) with true by (symmetry; apply Z.leb_le; lia).
    replace (y <=? e) with true by (symmetry; apply Z.leb_le; lia). done.
Qed.

(** After the writes of a run on the series of [compute_means], the cache
    holds at least [years * 10] matching rows: the fast path hits. *)
Lemma run_warms lines s e series now st sha db :
  compute_means lines s e ["TMIN"; "TMAX"]%string = Ok series ->
  (e - s + 1) * Z.of_nat (length ALL_METRICS) <=
    count_rows (write_rows (run_rows now st sha series ALL_METRICS) db) st sha s e.
Proof.
  intros Hcm. rewrite length_ALL_METRICS. change (Z.of_nat 10) with 10.
  destruct (Z.le_gt_cases (e - s + 1) 0) as [Hneg|Hpos].
  { unfold count_rows. lia. }
  set (K := run_keys st ALL_METRICS (zrange s (e + 1))).
  assert (HlenK : Z.of_nat (length K) = (e - s + 1) * 10).
  { unfold K. rewrite length_run_keys, length_zrange, length_ALL_METRICS. lia. }
  rewrite <- HlenK. apply count_rows_lower.
  - apply run_keys_NoDup; [apply ALL_METRICS_NoDup | apply zrange_NoDup].
  - intros k Hk.
    assert (Hk' := Hk). unfold K in Hk'.
    rewrite <- (run_rows_keys lines s e series now st sha Hcm) in Hk'.
    apply list_elem_of_fmap in Hk' as ([k' r] & -> & Hkr). cbn [fst].
    apply elem_of_run_keys in Hk as (m & y & Hk & _ & Hy). cbn [fst] in Hk. subst k'.
    apply zrange_elem in Hy.
    exists m, y, r. split; [done|]. split; [lia|]. split.
    + apply write_rows_in; [by apply (run_rows_NoDup lines s e)|done].
    + by apply run_rows_sha in Hkr as [? _].
Qed.

Lemma ev_not_in (x : event) (l : list event) : ~ In x l -> x ∉ l.
Proof. intros H Hx. apply H, list_elem_of_In, Hx. Qed.

Lemma ev_in (x : event) (l : list event) : In x l -> x ∈ l.
Proof. apply list_elem_of_In. Qed.

Lemma locked_body_cases fail_at now db st sha lines s e x n r db' evs :
  locked_body fail_at now db st sha lines s e x = (n, (r, db', evs)) ->
  (db' = db /\ (EvCommit ∉ evs) /\ (r = Ok tt -> x <= count_rows db st sha s e)) \/
  (r = Ok tt /\ EvCommit ∈ evs /\ exists series,
     compute_means lines s e ["TMIN"; "TMAX"]%string = Ok series /\
     db' = write_rows (run_rows now st sha series ALL_METRICS) db).
Proof.
  unfold locked_body.
  destruct (stmt_fails fail_at 2).
  { intros [= <- <- <- <-]. left. split_and!; [done|apply ev_not_in; simpl; tauto|discriminate]. }
  destruct (x <=? count_rows db st sha s e) eqn:Hx.
  { intros [= <- <- <- <-]. left. split_and!; [done|apply ev_not_in; simpl; tauto|].
    intros _. by apply Z.leb_le. }
  destruct (compute_means lines s e ["TMIN"; "TMAX"]%string) as [series|err] eqn:Hcm.
  2:{ intros [= <- <- <- <-]. left.
      split_and!; [done|apply ev_not_in; simpl; intuition discriminate|discriminate]. }
  destruct (exec_metrics fail_at 3 now st sha series ALL_METRICS db) as [k [pending|err]] eqn:Hex.
  2:{ intros [= <- <- <- <-]. left.
      split_and!; [done|apply ev_not_in; simpl; intuition discriminate|discriminate]. }
  destruct (stmt_fails fail_at k).
  { intros [= <- <- <- <-]. left.
    split_and!; [done|apply ev_not_in; simpl; intuition discriminate|discriminate]. }
  intros [= <- <- <- <-]. right. split_and!; [done|apply ev_in; simpl; tauto|].
  exists series. split; [done|]. by apply exec_metrics_ok_inv in Hex as [-> _].
Qed.

(** The two outcomes of a population call: nothing committed, or the rows of
    one successful aggregation written over the store. *)
Lemma ensure_cases fail_at now db st sha lines s e r db' evs :
  ensure_cached_metrics fail_at now db st sha lines s e = (r, db', evs) ->
  (db' = db /\ (EvCommit ∉ evs) /\
   (r = Ok tt -> (e - s + 1) * Z.of_nat (length ALL_METRICS) <= count_rows db st sha s e)) \/
  (EvCommit ∈ evs /\ exists series,
     compute_means lines s e ["TMIN"; "TMAX"]%string = Ok series /\
     db' = write_rows (run_rows now st sha series ALL_METRICS) db).
Proof.
  unfold ensure_cached_metrics. cbv zeta.
  destruct (stmt_fails fail_at 0).
  { intros [= <- <- <-]. left. split_and!; [done|apply ev_not_in; simpl; tauto|discriminate]. }
  destruct (_ <=? count_rows db st sha s e) eqn:Hx.
  { intros [= <- <- <-]. left. split_and!; [done|apply ev_not_in; simpl; tauto|].
    intros _. by apply Z.leb_le. }
  destruct (stmt_fails fail_at 1).
  { intros [= <- <- <-]. left. split_and!; [done|apply ev_not_in; simpl; tauto|discriminate]. }
  destruct (locked_body fail_at now db st sha lines s e _) as [n [[r0 db0] evs0]] eqn:Hlb.
  intros [= <- <- <-].
  apply locked_body_cases in Hlb as [(-> & Hnc & Hok)|(-> & Hc & series & Hcm & ->)].
  - left. split; [done|]. split.
    + intros Hin. apply list_elem_of_In in Hin. simpl in Hin. rewrite in_app_iff in Hin.
      destruct Hin as [Hin|[Hin|[Hin|Hin]]]; try discriminate; [|done].
      by apply Hnc, list_elem_of_In.
    + destruct (stmt_fails fail_at n); [discriminate|]. exact Hok.
  - right. split; [|eauto].
    apply list_elem_of_In. simpl. right. apply in_app_iff. left. by apply list_elem_of_In.
Qed.

(** On a warm store the call takes the fast path. *)
Lemma ensure_warm fail_at now db st sha lines s e :
  fail_at <> Some 0%nat ->
  (e - s + 1) * Z.of_nat (length ALL_METRICS) <= count_rows db st sha s e ->
  ensure_cached_metrics fail_at now db st sha lines s e = (Ok tt, db, []).
Proof.
  intros Hf Hw. unfold ensure_cached_metrics. cbv zeta.
  replace (stmt_fails fail_at 0) with false
    by (symmetry; unfold stmt_fails; by apply bool_decide_eq_false).
  by replace (_ <=? _) with true by (symmetry; by apply Z.leb_le).
Qed.

Lemma mapM_Ok_ext {A B} (f : A -> Exc B) (g : A -> B) (l : list A) :
  (forall x, x ∈ l -> f x = Ok (g x)) -> mapM f l = Ok (g <$> l).
Proof.
  induction l as [|x l IH]; intros H; simpl; [done|].
  rewrite (H x (list_elem_of_here x l)). simpl.
  rewrite IH; [done|]. intros y Hy. apply H, elem_of_cons. by right.
Qed.

Lemma bind_Ok_l {A B} (a : A) (k : A -> Exc B) : (x ← Ok a; k x) = k a.
Proof. reflexivity. Qed.

(** Filling [by_metric] from rows whose [(metric, year)] are distinct and whose
    metrics are all keys: each key is kept, and the entry of [(metric, year)] is
    the point of the row with that metric and year, if there is one. *)
Lemma fill_by_metric_spec rows bm :
  NoDup ((fun kr : (string * string * Z) * CacheRow => (kr.1.1.2, kr.1.2)) <$> rows) ->
  (forall kr, kr ∈ rows -> is_Some (bm !! kr.1.1.2)) ->
  exists bm', fill_by_metric rows bm = Ok bm' /\
    (forall m, is_Some (bm' !! m) <-> is_Some (bm !! m)) /\
    (forall m d', bm' !! m = Some d' -> exists d, bm !! m = Some d /\
       forall y, (forall st r, ((st, m, y), r) ∈ rows -> d' !! y = Some (row_point y r)) /\
                 ((forall st r, ((st, m, y), r) ∉ rows) -> d' !! y = d !! y)).
Proof.
  revert bm. induction rows as [|[[[st0 m0] y0] r0] rest IH]; intros bm Hnd Hdom.
  - exists bm. split_and!; [done|done|]. intros m d' Hd'. exists d'. split; [done|].
    intros y. split; [|done]. intros st r Hin. by apply elem_of_nil in Hin.
  - rewrite fmap_cons in Hnd. apply NoDup_cons in Hnd as [Hnotin Hnd].
    destruct (Hdom ((st0, m0, y0), r0) (list_elem_of_here _ _)) as [d0 Hd0].
    cbn [fill_by_metric]. cbn [fst snd] in Hd0. rewrite Hd0.
    set (bm1 := <[m0 := <[y0 := row_point y0 r0]> d0]> bm).
    destruct (IH bm1 Hnd) as (bm' & Hfill & Hdom' & Hpt).
    { intros kr Hkr. unfold bm1. destruct (decide (kr.1.1.2 = m0)) as [->|Hne].
      - rewrite lookup_insert_eq. by eexists.
      - rewrite lookup_insert_ne by congruence. apply Hdom, elem_of_cons. by right. }
    exists bm'. split_and!; [done| |].
    + intros m. rewrite Hdom'. unfold bm1. destruct (decide (m = m0)) as [->|Hne].
      * rewrite lookup_insert_eq, Hd0. split; intros; by eexists.
      * by rewrite lookup_insert_ne by congruence.
    + intros m d' Hd'. destruct (Hpt m d' Hd') as (d1 & Hd1 & Hy).
      unfold bm1 in Hd1. destruct (decide (m = m0)) as [->|Hne].
      * rewrite lookup_insert_eq in Hd1. injection Hd1 as <-. exists d0. split; [done|].
        intros y. destruct (Hy y) as [Hin Hout]. split.
        -- intros st r Hr. apply elem_of_cons in Hr as [Hr|Hr].
           ++ simplify_eq. rewrite Hout; [by rewrite lookup_insert_eq|].
              intros st' r' Hr'. apply Hnotin, list_elem_of_fmap.
              exists ((st', m0, y0), r'). by split.
           ++ by apply (Hin st r).
        -- intros Hno. rewrite Hout.
           ++ rewrite lookup_insert_ne; [done|]. intros ->.
              apply (Hno st0 r0), list_elem_of_here.
           ++ intros st r Hr. apply (Hno st r), elem_of_cons. by right.
      * rewrite lookup_insert_ne in Hd1 by congruence. exists d1. split; [done|].
        intros y. destruct (Hy y) as [Hin Hout]. split.
        -- intros st r Hr. apply elem_of_cons in Hr as [Hr|Hr]; [simplify_eq|].
           by apply (Hin st r).
        -- intros Hno. apply Hout. intros st r Hr. apply (Hno st r), elem_of_cons. by right.
Qed.

Lemma series_row_matches_true st sha s e metrics st' m y r :
  series_row_matches st sha s e metrics ((st', m, y), r) = true <->
  st' = st /\ row_sha256 r = sha /\ s <= y <= e /\ m ∈ metrics.
Proof.
  cbn. rewrite !andb_true_iff, !String.eqb_eq, !Z.leb_le, existsb_exists.
  split.
  - intros [[[[-> ->] H1] H2] (m' & Hm' & Heq)]. apply String.eqb_eq in Heq. subst m'.
    split_and!; [done|done|lia|lia|by apply list_elem_of_In].
  - intros (-> & -> & Hy & Hm). split_and!; [done|done|lia|lia|].
    exists m. split; [by apply list_elem_of_In|apply String.eqb_refl].
Qed.

Lemma by_metric0_lookup (metrics : list string) m :
  m ∈ metrics ->
  (list_to_map ((fun m => (m, ∅)) <$> metrics) : gmap string (gmap Z MeanPoint)) !! m = Some ∅.
Proof.
  intros Hm. destruct (list_to_map _ !! m) as [d|] eqn:Hd.
  - apply elem_of_list_to_map_2, list_elem_of_fmap in Hd as (m' & Heq & _).
    by injection Heq as -> ->.
  - apply not_elem_of_list_to_map_2 in Hd. exfalso. apply Hd, list_elem_of_fmap.
    exists (m, ∅). split; [done|]. apply list_elem_of_fmap. by exists m.
Qed.

(** [load_cached_series] on a non-empty metric list is the dense series of
    [cached_point]s. *)
Lemma load_cached_series_eq db st sha s e metrics :
  metrics <> [] ->
  load_cached_series db st sha s e metrics =
    Ok ((fun m => {| key := m; series_sha256 := sha;
                     points := cached_point db st sha m <$> zrange s (e + 1) |}) <$> metrics).
Proof.
  intros Hne. unfold load_cached_series.
  destruct metrics as [|m0 ms]; [done|]. clear Hne.
  set (metrics := m0 :: ms).
  set (rows := List.filter (series_row_matches st sha s e metrics) (map_to_list db)).
  set (bm0 := (list_to_map ((fun m => (m, ∅)) <$> metrics) : gmap string (gmap Z MeanPoint))).
  assert (Hbm0 : forall m, m ∈ metrics -> bm0 !! m = Some ∅) by (intros; by apply by_metric0_lookup).
  assert (Hrows : forall st' m y r, ((st', m, y), r) ∈ rows <->
            db !! (st', m, y) = Some r /\ st' = st /\ row_sha256 r = sha /\
            s <= y <= e /\ m ∈ metrics).
  { intros st' m y r. unfold rows. rewrite list_elem_of_In, filter_In, <- list_elem_of_In.
    rewrite elem_of_map_to_list, series_row_matches_true. tauto. }
  destruct (fill_by_metric_spec rows bm0) as (bm' & Hfill & Hdom & Hpt).
  { apply NoDup_fmap_2_strong.
    - intros [[[st1 m1] y1] r1] [[[st2 m2] y2] r2] H1 H2 Heq. simplify_eq/=.
      apply Hrows in H1 as (H1 & -> & _). apply Hrows in H2 as (H2 & -> & _).
      congruence.
    - apply NoDup_ListNoDup, List.NoDup_filter, NoDup_ListNoDup, NoDup_map_to_list. }
  { intros [[[st' m] y] r] Hkr. apply Hrows in Hkr as (_ & _ & _ & _ & Hm).
    change (is_Some (bm0 !! m)). rewrite (Hbm0 m Hm). by eexists. }
  rewrite Hfill, bind_Ok_l. apply mapM_Ok_ext. intros m Hm.
  destruct (bm' !! m) as [d'|] eqn:Hd'.
  2:{ exfalso. assert (is_Some (bm0 !! m)) as Hs%Hdom
        by (rewrite (Hbm0 m Hm); by eexists).
      rewrite Hd' in Hs. by destruct Hs. }
  destruct (Hpt m d' Hd') as (d & Hd & Hy).
  rewrite (Hbm0 m Hm) in Hd. injection Hd as <-.
  rewrite map_is_fmap. do 2 f_equal. apply list_fmap_ext. intros i y Hi.
  assert (Hyr : s <= y <= e).
  { assert (Hz : s <= y < e + 1); [|lia].
    apply zrange_elem. apply list_elem_of_lookup_2 with i. exact Hi. }
  destruct (Hy y) as [Hin Hout]. unfold cached_point.
  destruct (db !! (st, m, y)) as [r|] eqn:Hdb;
    [destruct (String.eqb (row_sha256 r) sha) eqn:Hsha|].
  - apply String.eqb_eq in Hsha. rewrite (Hin st r); [done|].
    apply Hrows. split_and!; (done || lia).
  - rewrite Hout; [by rewrite lookup_empty|]. intros st' r' Hr'.
    apply Hrows in Hr' as (Hdb' & -> & Hsha' & _). rewrite Hdb in Hdb'. injection Hdb' as <-.
    rewrite Hsha', String.eqb_refl in Hsha. discriminate.
  - rewrite Hout; [by rewrite lookup_empty|]. intros st' r' Hr'.
    apply Hrows in Hr' as (Hdb' & -> & _). congruence.
Qed.

Lemma lookup_insert_cases {A} (l : list A) i x j y :
  <[i := x]> l !! j = Some y -> (j = i /\ y = x) \/ (j <> i /\ l !! j = Some y).
Proof. intros H. apply list_lookup_insert_Some in H. naive_solver. Qed.

Lemma pcs_insert_all (P : pc -> Prop) (pcs : list pc) i x :
  (forall j p, pcs !! j = Some p -> P p) -> P x ->
  forall j p, <[i := x]> pcs !! j = Some p -> P p.
Proof.
  intros Hall Hx j p Hj. apply lookup_insert_cases in Hj as [[_ ->]|[_ Hj]]; eauto.
Qed.

Lemma list_insert_twice {A} (l : list A) i x y : <[i := x]> (<[i := y]> l) = <[i := x]> l.
Proof. rewrite list_insert_insert. by rewrite decide_True. Qed.

Lemma cstep_lock_inv st sha lines s e now mf c c' :
  cstep st sha lines s e now mf c c' -> lock_inv c -> lock_inv c'.
Proof.
  unfold lock_inv. intros Hs Hinv.
  destruct Hs; intros j q Hq Hh; cbn [c_pcs c_lock] in *; try destruct ok;
    apply lookup_insert_cases in Hq as [[-> ->]|[Hne Hq]];
    try discriminate Hh; try (by apply (Hinv j q)).
  all: match goal with
       | Hi : _ !! ?i = Some _ |- _ => first
           [ done
           | by apply (Hinv i _ Hi)
           | exfalso; pose proof (Hinv j q Hq Hh); congruence
           | exfalso; apply Hne; pose proof (Hinv j q Hq Hh);
             pose proof (Hinv i _ Hi eq_refl); congruence ]
       end.
Qed.

Lemma cstep_length st sha lines s e now mf c c' :
  cstep st sha lines s e now mf c c' -> length (c_pcs c') = length (c_pcs c).
Proof. destruct 1; apply length_insert. Qed.

(** A trace without failing statements is a trace of the model where they may
    fail. *)
Lemma cstep_mono st sha lines s e now c c' :
  cstep st sha lines s e now false c c' -> cstep st sha lines s e now true c c'.
Proof.
  destruct 1; try discriminate.
  - by apply cs_fast_hit.
  - by apply cs_fast_miss.
  - by apply cs_lock.
  - by apply cs_recheck_hit.
  - by apply cs_recheck_miss.
  - by eapply cs_compute_ok.
  - by eapply cs_compute_fail.
  - by eapply cs_commit_ok.
  - by eapply cs_commit_fail.
  - by apply cs_release.
Qed.

Lemma rtc_cstep_mono st sha lines s e now c c' :
  rtc (cstep st sha lines s e now false) c c' -> rtc (cstep st sha lines s e now true) c c'.
Proof.
  induction 1 as [|x y z Hxy _ IH]; [done|]. eapply rtc_l; [|exact IH]. by apply cstep_mono.
Qed.

Lemma rtc_lock_inv st sha lines s e now mf c c' :
  rtc (cstep st sha lines s e now mf) c c' -> lock_inv c -> lock_inv c'.
Proof.
  induction 1 as [|x y z Hxy _ IH]; [done|]. intros H. apply IH.
  by eapply cstep_lock_inv.
Qed.

Lemma rtc_length st sha lines s e now mf c c' :
  rtc (cstep st sha lines s e now mf) c c' -> length (c_pcs c') = length (c_pcs c).
Proof.
  induction 1 as [|x y z Hxy _ IH]; [done|]. rewrite IH. by apply cstep_length in Hxy.
Qed.

Lemma cinit_lock_inv N db : lock_inv (cinit N db).
Proof.
  intros i p Hi Hh. cbn in Hi. apply lookup_replicate in Hi as [-> _]. discriminate.
Qed.

Lemma lock_inv_exclusive c i j p q :
  lock_inv c -> c_pcs c !! i = Some p -> c_pcs c !! j = Some q ->
  holding p = true -> holding q = true -> i = j.
Proof.
  intros Hinv Hi Hj Hp Hq. pose proof (Hinv i p Hi Hp). pose proof (Hinv j q Hj Hq). congruence.
Qed.

(** When the aggregation raises, no caller ever reaches the upserts, so the
    committed store never changes, whatever statements fail. *)
Lemma cstep_no_commit st sha lines s e now mf db0 err c c' :
  the_result lines s e = Raise err -> cstep st sha lines s e now mf c c' ->
  c_db c = db0 -> (forall i ser, c_pcs c !! i <> Some (PCommitting ser)) ->
  c_db c' = db0 /\ (forall i ser, c_pcs c' !! i <> Some (PCommitting ser)).
Proof.
  intros Hres Hs Hdb Hnc. destruct Hs; cbn [c_db c_pcs] in *;
    try (exfalso; by eapply Hnc); try congruence.
  all: split; [done|]; intros j ser' Hj;
    apply lookup_insert_cases in Hj as [[_ Heq]|[_ Hj]];
    [try destruct ok; discriminate Heq | by eapply Hnc].
Qed.

Lemma rtc_no_commit st sha lines s e now mf N db0 err c :
  the_result lines s e = Raise err -> rtc (cstep st sha lines s e now mf) (cinit N db0) c ->
  c_db c = db0.
Proof.
  intros Hres Hrun.
  cut (forall c0, rtc (cstep st sha lines s e now mf) c0 c ->
         c_db c0 = db0 -> (forall i ser, c_pcs c0 !! i <> Some (PCommitting ser)) ->
         c_db c = db0); [intros H; apply (H _ Hrun); [done|]|].
  - intros i ser Hi. cbn in Hi. apply lookup_replicate in Hi as [Hi _]. discriminate.
  - clear Hrun. induction 1 as [|x y z Hxy _ IH]; [done|]. intros Hdb Hnc.
    destruct (cstep_no_commit _ _ _ _ _ _ _ db0 err _ _ Hres Hxy Hdb Hnc). by apply IH.
Qed.

(** One caller on a cold store runs the aggregation and then raises, leaving
    the store and the lock as they were: its aggregation raises, or (when
    statements may fail) an [INSERT] or the commit of its transaction fails. *)
Lemma caller_fails st sha lines s e now mf db0 pcs k n :
  ~ cache_warm st sha s e db0 -> pcs !! k = Some PStart ->
  (mf = true \/ exists err, the_result lines s e = Raise err) ->
  rtc (cstep st sha lines s e now mf) (mkC db0 None pcs n)
      (mkC db0 None (<[k := PFailed]> pcs) (S n)).
Proof.
  intros Hcold Hk Hmf.
  assert (Hlt : (k < length pcs)%nat) by (eapply lookup_lt_Some; eauto).
  eapply rtc_l; [by eapply cs_fast_miss|].
  eapply rtc_l; [apply cs_lock; by apply list_lookup_insert_eq|].
  rewrite list_insert_twice.
  eapply rtc_l; [apply cs_recheck_miss; [by apply list_lookup_insert_eq|done]|].
  rewrite list_insert_twice.
  destruct (the_result lines s e) as [series|err] eqn:Hres.
  - destruct Hmf as [-> | [err Herr]]; [|congruence].
    eapply rtc_l; [eapply cs_compute_ok; [by apply list_lookup_insert_eq|exact Hres]|].
    rewrite list_insert_twice.
    eapply rtc_l; [eapply cs_write_fail; [done|by apply list_lookup_insert_eq]|].
    rewrite list_insert_twice.
    eapply rtc_l; [eapply cs_release; by apply list_lookup_insert_eq|].
    rewrite list_insert_twice. apply rtc_refl.
  - eapply rtc_l; [eapply cs_compute_fail; [by apply list_lookup_insert_eq|exact Hres]|].
    rewrite list_insert_twice.
    eapply rtc_l; [eapply cs_release; by apply list_lookup_insert_eq|].
    rewrite list_insert_twice. apply rtc_refl.
Qed.

(** The callers, one after the other, each run the aggregation and raise. *)
Lemma callers_fail st sha lines s e now mf db0 N :
  ~ cache_warm st sha s e db0 ->
  (mf = true \/ exists err, the_result lines s e = Raise err) ->
  rtc (cstep st sha lines s e now mf) (cinit N db0) (mkC db0 None (replicate N PFailed) N).
Proof.
  intros Hcold Hmf.
  assert (Hk : forall k, (k <= N)%nat ->
    rtc (cstep st sha lines s e now mf) (cinit N db0)
        (mkC db0 None (replicate k PFailed ++ replicate (N - k) PStart) k)).
  { induction k as [|k IH]; intros Hle.
    - rewrite Nat.sub_0_r. apply rtc_refl.
    - etrans; [apply IH; lia|].
      replace (replicate (S k) PFailed ++ replicate (N - S k) PStart)
        with (<[k := PFailed]> (replicate k PFailed ++ replicate (N - k) PStart)).
      + apply caller_fails; [done| |done].
        rewrite lookup_app_r; rewrite length_replicate; [|lia].
        rewrite Nat.sub_diag. apply lookup_replicate_2. lia.
      + rewrite insert_app_r_alt; rewrite length_replicate; [|lia].
        rewrite Nat.sub_diag.
        replace (N - k)%nat with (S (N - S k)) by lia.
        rewrite (replicate_S_end k PFailed), <- app_assoc. reflexivity. }
  specialize (Hk N (le_n N)). rewrite Nat.sub_diag, app_nil_r in Hk. exact Hk.
Qed.

Lemma stmt_fails_None n : stmt_fails None n = false.
Proof. unfold stmt_fails. by apply bool_decide_eq_false_2. Qed.

(** On a cold cache and with no failing statement, a population call takes
    the lock, aggregates, and commits the run's rows, or rolls back on an
    exception of the aggregation. *)
Lemma ensure_cold now db st sha lines s e :
  count_rows db st sha s e < (e - s + 1) * 10 ->
  ensure_cached_metrics None now db st sha lines s e =
    match compute_means lines s e ["TMIN"; "TMAX"]%string with
    | Ok series => (Ok tt, write_rows (run_rows now st sha series ALL_METRICS) db,
                    [EvLock; EvCompute; EvCommit; EvUnlock])
    | Raise err => (Raise err, db, [EvLock; EvCompute; EvUnlock])
    end.
Proof.
  intros Hcold. unfold ensure_cached_metrics, locked_body. cbv zeta.
  rewrite !stmt_fails_None. rewrite length_ALL_METRICS.
  replace ((e - s + 1) * Z.of_nat 10 <=? count_rows db st sha s e) with false
    by (symmetry; apply Z.leb_gt; lia).
  destruct (compute_means lines s e ["TMIN"; "TMAX"]%string) as [series|err] eqn:Hcm.
  - destruct (exec_metrics_ok 3 now st sha series ALL_METRICS db) as [n' Hex];
      [by apply (run_rows_all_present lines s e)|].
    rewrite Hex, !stmt_fails_None. reflexivity.
  - rewrite stmt_fails_None. reflexivity.
Qed.

Section Phases.
Variables (st sha : string) (lines : list string) (s e now : Z).
Variables (series : gmap string (list MeanPoint)) (db0 : store).
Hypothesis Hres : the_result lines s e = Ok series.
Hypothesis Hcold : ~ cache_warm st sha s e db0.

Local Abbreviation db1 := (write_rows (run_rows now st sha series ALL_METRICS) db0).
Local Abbreviation phases c :=
  (phase_before db0 c \/ phase_computed db0 series c \/ phase_committed db1 c).

Lemma db1_warm : cache_warm st sha s e db1.
Proof. unfold cache_warm, expected_rows_of. by apply (run_warms lines). Qed.

Lemma db0_exec : exists k, exec_metrics None 3 now st sha series ALL_METRICS db0 = (k, Ok db1).
Proof. apply exec_metrics_ok. by apply (run_rows_all_present lines s e). Qed.

Lemma cstep_phases c c' :
  cstep st sha lines s e now false c c' -> lock_inv c -> phases c -> phases c'.
Proof.
  intros Hs Hlock Hph. destruct db0_exec as [k0 Hex]. pose proof db1_warm as Hw1.
  unfold lock_inv in Hlock.
  destruct Hs as [i db l pcs n Hi Hw|i db l pcs n Hi Hw|i db l pcs n Hf Hi|i db pcs n Hi
                |i db l pcs n Hf Hi|i db l pcs n Hi Hw|i db l pcs n Hi Hw|i db l pcs n Hf Hi
                |i db l pcs n ser Hi Hr|i db l pcs n err Hi Hr
                |i db l pcs n ser k db' Hi Hx|i db l pcs n ser k err Hi Hx
                |i db l pcs n ser Hf Hi|i db l pcs n ok Hi|i db l pcs n ok Hf Hi];
    try discriminate Hf;
    unfold phase_before, phase_computed, phase_committed in *;
    cbn [c_db c_lock c_pcs c_computes] in *;
    (destruct Hph as [(-> & -> & Hall)|[(-> & -> & [kc Hkc] & Hall)|(-> & -> & Hall)]]);
    try (exfalso; exact (Hall i _ Hi));
    try (exfalso; by apply Hcold);
    try (exfalso; by apply Hw);
    try (rewrite Hres in Hr; discriminate);
    try (exfalso; pose proof (Hlock kc _ Hkc eq_refl); discriminate);
    (* a release after the commit is that of a call that returns normally *)
    try (pose proof (Hall i _ Hi) as Hok; cbn in Hok; subst ok).
  (* the caller stays in its phase *)
  all: try (left; split_and!; [done|done|by apply pcs_insert_all]).
  all: try (right; right; split_and!; [done|done|by apply pcs_insert_all]).
  - (* another caller takes the fast path while the commit is pending *)
    right; left. split_and!; [done|done| |by apply pcs_insert_all].
    exists kc. rewrite list_lookup_insert_ne; [done|]. intros ->. congruence.
  - (* the aggregation: before -> computed *)
    assert (ser = series) as -> by congruence.
    right; left. split_and!; [done|done| |].
    + exists i. apply list_lookup_insert_eq. by eapply lookup_lt_Some.
    + intros j p Hj. apply lookup_insert_cases in Hj as [[-> ->]|[Hne Hj]]; [done|].
      specialize (Hall j p Hj).
      destruct p; try done; exfalso; apply Hne;
        (eapply (lock_inv_exclusive (mkC db0 l pcs 0) j i); [exact Hlock|exact Hj|exact Hi|done|done]).
  - (* the commit: computed -> committed *)
    assert (ser = series) as -> by exact (Hall i _ Hi).
    rewrite Hex in Hx. injection Hx as _ <-.
    right; right. split_and!; [done|done|].
    intros j p Hj. apply lookup_insert_cases in Hj as [[-> ->]|[Hne Hj]]; [done|].
    specialize (Hall j p Hj).
    destruct p; try done; exfalso; apply Hne;
      (eapply (lock_inv_exclusive (mkC db0 l pcs 1) j i); [exact Hlock|exact Hj|exact Hi|done|done]).
  - (* the failing commit cannot happen *)
    assert (ser = series) as -> by exact (Hall i _ Hi). congruence.
Qed.

Lemma rtc_phases c c' :
  rtc (cstep st sha lines s e now false) c c' -> lock_inv c -> phases c -> phases c'.
Proof.
  induction 1 as [|x y z Hxy _ IH]; [done|]. intros Hl Hp. apply IH.
  - by eapply cstep_lock_inv.
  - by apply (cstep_phases x).
Qed.

End Phases.

End CacheFacts.


(* ================================================================== *)
(** * Claims on cache population *)

Module PopulateClaims.
Import AggFacts Cache CacheFacts.

(** C8: a population call either leaves the committed store as it was and
    commits nothing, or commits once, after a successful aggregation: then
    every point of the run is stored under [(station_id, metric, year)] with
    the call's hash, value, day counts and timestamp, and every other key keeps
    its row. A failure before the commit thus leaves the store unchanged. *)
Theorem populate_all_or_nothing fail_at now db st sha lines s e r db' evs :
  ensure_cached_metrics fail_at now db st sha lines s e = (r, db', evs) ->
  (db' = db /\ EvCommit ∉ evs) \/
  (EvCommit ∈ evs /\ exists series,
     compute_means lines s e ["TMIN"; "TMAX"]%string = Ok series /\
     (forall m pts p, m ∈ ALL_METRICS -> series !! m = Some pts -> p ∈ pts ->
        db' !! (st, m, year p) =
          Some (mkRow sha (value_c p) (present_days p) (expected_days p) now)) /\
     (forall k, k ∉ (run_rows now st sha series ALL_METRICS).*1 -> db' !! k = db !! k)).
Proof.
  intros H. apply ensure_cases in H as [(-> & Hnc & _)|(Hc & series & Hcm & ->)].
  - by left.
  - right. split; [done|]. exists series. split_and!; [done| |].
    + intros m pts p Hm Hpts Hp. apply write_rows_in.
      * by apply (run_rows_NoDup lines s e).
      * by eapply in_run_rows.
    + intros k Hk. by apply write_rows_notin.
Qed.

Lemma populate_all_or_nothing_witness :
  let '(r, db', evs) :=
    ensure_cached_metrics None 0 ∅ "USW00012345" "h" [ex_line] 2020 2020 in
  (db' = ∅ /\ EvCommit ∉ evs) \/
  (EvCommit ∈ evs /\ exists series,
     compute_means [ex_line] 2020 2020 ["TMIN"; "TMAX"]%string = Ok series /\
     (forall m pts p, m ∈ ALL_METRICS -> series !! m = Some pts -> p ∈ pts ->
        db' !! ("USW00012345"%string, m, year p) =
          Some (mkRow "h" (value_c p) (present_days p) (expected_days p) 0)) /\
     (forall k, k ∉ (run_rows 0 "USW00012345" "h" series ALL_METRICS).*1 -> db' !! k = (∅ : store) !! k)).
Proof.
  destruct (ensure_cached_metrics None 0 ∅ "USW00012345" "h" [ex_line] 2020 2020)
    as [[r db'] evs] eqn:Hx.
  exact (populate_all_or_nothing None 0 ∅ "USW00012345" "h" [ex_line] 2020 2020 r db' evs Hx).
Defined.

(** C5, as the code behaves: on a store already holding the expected number
    of matching rows the call returns at once, with no lock, no computation and
    no write; a second call after a first one that committed, or returned
    normally, is such a call; and a first call that raised without committing
    left the store as it was, so the second call runs on the same store as the
    first. In particular, on a cold store whose aggregation raises and with no
    failing statement, each of two calls in sequence takes the lock, runs the
    aggregation and raises. *)
Theorem populate_idempotent fail1 fail2 now1 now2 db st sha lines s e r1 db1 evs1 :
  fail2 <> Some 0%nat ->
  ((e - s + 1) * Z.of_nat (length ALL_METRICS) <= count_rows db st sha s e ->
   ensure_cached_metrics fail2 now2 db st sha lines s e = (Ok tt, db, [])) /\
  (ensure_cached_metrics fail1 now1 db st sha lines s e = (r1, db1, evs1) ->
   (r1 = Ok tt \/ EvCommit ∈ evs1 ->
    ensure_cached_metrics fail2 now2 db1 st sha lines s e = (Ok tt, db1, [])) /\
   (EvCommit ∉ evs1 -> db1 = db)) /\
  (forall err, compute_means lines s e ["TMIN"; "TMAX"]%string = Raise err ->
   count_rows db st sha s e < (e - s + 1) * Z.of_nat (length ALL_METRICS) ->
   ensure_cached_metrics None now1 db st sha lines s e =
     (Raise err, db, [EvLock; EvCompute; EvUnlock]) /\
   ensure_cached_metrics None now2 db st sha lines s e =
     (Raise err, db, [EvLock; EvCompute; EvUnlock])).
Proof.
  intros Hf. split_and!; [by apply ensure_warm| |].
  - intros H1. split.
    + intros Hok. apply ensure_warm; [done|].
      apply ensure_cases in H1 as [(-> & Hnc & Hw)|(Hc & series & Hcm & ->)].
      * destruct Hok as [Hok|Hok]; [by apply Hw|done].
      * by apply (run_warms lines).
    + intros Hnc. apply ensure_cases in H1 as [(-> & _ & _)|(Hc & _)]; [done|].
      exfalso. by apply Hnc.
  - intros err Herr Hcold. rewrite length_ALL_METRICS in Hcold.
    rewrite !ensure_cold, Herr by exact Hcold. done.
Qed.

Lemma populate_idempotent_witness :
  (let '(r1, db1, evs1) :=
     ensure_cached_metrics None 0 ∅ "USW00012345" "h" [ex_line] 2020 2020 in
   r1 = Ok tt /\
   ensure_cached_metrics (Some 1%nat) 1 db1 "USW00012345" "h" [ex_line] 2020 2020 =
     (Ok tt, db1, [])) /\
  ensure_cached_metrics None 0 ∅ "USW00012345" "h" [bad_year_line] 2020 2020 =
    (Raise ValueError, ∅, [EvLock; EvCompute; EvUnlock]) /\
  ensure_cached_metrics None 1 ∅ "USW00012345" "h" [bad_year_line] 2020 2020 =
    (Raise ValueError, ∅, [EvLock; EvCompute; EvUnlock]).
Proof.
  split.
  - assert (Hr : (ensure_cached_metrics None 0 ∅ "USW00012345" "h" [ex_line] 2020 2020).1.1
                 = Ok tt) by (vm_compute; reflexivity).
    destruct (ensure_cached_metrics None 0 ∅ "USW00012345" "h" [ex_line] 2020 2020)
      as [[r1 db1] evs1] eqn:H1.
    cbn in Hr. split; [exact Hr|].
    exact (proj1 ((proj1 (proj2 (populate_idempotent None (Some 1%nat) 0 1 ∅ "USW00012345" "h"
                    [ex_line] 2020 2020 r1 db1 evs1 ltac:(discriminate)))) H1) (or_introl Hr)).
  - apply (proj2 (proj2 (populate_idempotent None (Some 1%nat) 0 1 ∅ "USW00012345" "h"
             [bad_year_line] 2020 2020 (Ok tt) ∅ [] ltac:(discriminate))) ValueError).
    + vm_compute. reflexivity.
    + vm_compute. reflexivity.
Defined.

(** C5 as stated fails: when the aggregation raises, nothing is cached, and
    two calls in sequence both run the full aggregation. *)
Lemma populate_idempotent_counterexample :
  let '(r1, db1, evs1) :=
    ensure_cached_metrics None 0 ∅ "USW00012345" "h" [bad_year_line] 2020 2020 in
  let '(r2, db2, evs2) :=
    ensure_cached_metrics None 1 db1 "USW00012345" "h" [bad_year_line] 2020 2020 in
  r1 = Raise ValueError /\ r2 = Raise ValueError /\ map_to_list db2 = [] /\
  computes evs1 = 1%nat /\ computes evs2 = 1%nat.
Proof. vm_compute. split_and!; reflexivity. Qed.

End PopulateClaims.


(* ================================================================== *)
(** * Claims on reading the cache *)

Module LoadClaims.
Import AggFacts Cache CacheFacts.

(** C6: for a non-empty metric list and [start_year <= end_year],
    [load_cached_series] returns one entry per requested metric whose points
    are, for the years [start_year .. end_year] in ascending order, the cached
    row's values when the row carries the requested hash and the placeholder
    [(None, 0, 0)] otherwise; there are [end_year - start_year + 1] of them, and
    on an empty cache they are all placeholders. *)
Theorem load_cached_series_dense db st sha s e metrics :
  metrics <> [] -> s <= e ->
  load_cached_series db st sha s e metrics =
    Ok ((fun m => {| key := m; series_sha256 := sha;
                     points := cached_point db st sha m <$> zrange s (e + 1) |}) <$> metrics) /\
  (forall m, Z.of_nat (length (cached_point db st sha m <$> zrange s (e + 1))) = e - s + 1 /\
     (forall i, Z.of_nat i < e - s + 1 ->
        year <$> ((cached_point db st sha m <$> zrange s (e + 1)) !! i) =
          Some (s + Z.of_nat i))) /\
  load_cached_series ∅ st sha s e metrics =
    Ok ((fun m => {| key := m; series_sha256 := sha;
                     points := placeholder <$> zrange s (e + 1) |}) <$> metrics).
Proof.
  intros Hne Hse. split_and!.
  - by apply load_cached_series_eq.
  - intros m. split.
    + rewrite length_fmap, length_zrange. lia.
    + intros i Hi. rewrite list_lookup_fmap, zrange_lookup by lia. cbn.
      unfold cached_point.
      destruct (db !! _) as [r|]; [destruct (String.eqb _ _)|]; reflexivity.
  - (* [∅ !! k] is [None] by computation, so [cached_point ∅] is [placeholder] *)
    rewrite load_cached_series_eq by done. reflexivity.
Qed.

Lemma load_cached_series_dense_witness :
  load_cached_series ∅ "USW00012345" "h" 2020 2021 ["tmin_year"; "tmax_year"]%string =
    Ok [{| key := "tmin_year"; series_sha256 := "h";
           points := [placeholder 2020; placeholder 2021] |};
        {| key := "tmax_year"; series_sha256 := "h";
           points := [placeholder 2020; placeholder 2021] |}].
Proof.
  destruct (load_cached_series_dense ∅ "USW00012345" "h" 2020 2021
              ["tmin_year"; "tmax_year"]%string ltac:(discriminate) ltac:(lia))
    as (_ & _ & Hempty).
  rewrite Hempty. reflexivity.
Defined.

End LoadClaims.

(* ================================================================== *)
(** * Claims on concurrent population *)

Module ConcurrencyClaims.
Import AggFacts Cache CacheFacts.

(** C9, as the model behaves. Whatever statements fail, in every reachable
    state at most one caller is between lock and unlock, so at most one
    aggregation runs at a time. When no statement fails, the aggregation
    succeeds and the store starts cold, at most one aggregation pass runs in
    total, and once all [N > 0] callers are done exactly one has run, the store
    holds its rows and is warm, and every caller returned normally on that same
    store. When the aggregation raises, the committed store never changes. On a
    cold store the N callers can each run the aggregation, N passes in all:
    when it raises (with no failing statement), or when a statement of each
    lock holder's transaction fails. *)
Theorem concurrent_single_pass st sha lines s e now N db0 :
  (forall c, rtc (cstep st sha lines s e now true) (cinit N db0) c ->
     forall i j p q, c_pcs c !! i = Some p -> c_pcs c !! j = Some q ->
       holding p = true -> holding q = true -> i = j) /\
  (forall series c, the_result lines s e = Ok series -> ~ cache_warm st sha s e db0 ->
     rtc (cstep st sha lines s e now false) (cinit N db0) c ->
     (c_computes c <= 1)%nat /\
     ((0 < N)%nat -> all_done c ->
        c_computes c = 1%nat /\
        c_db c = write_rows (run_rows now st sha series ALL_METRICS) db0 /\
        cache_warm st sha s e (c_db c) /\
        (forall i p, c_pcs c !! i = Some p -> p = PDone (c_db c)))) /\
  (forall err c, the_result lines s e = Raise err ->
     rtc (cstep st sha lines s e now true) (cinit N db0) c -> c_db c = db0) /\
  (~ cache_warm st sha s e db0 ->
     exists c, rtc (cstep st sha lines s e now true) (cinit N db0) c /\
       all_done c /\ c_computes c = N /\ c_db c = db0 /\
       (forall err, the_result lines s e = Raise err ->
          rtc (cstep st sha lines s e now false) (cinit N db0) c)).
Proof.
  split_and!.
  - intros c Hrun i j p q Hi Hj Hp Hq.
    eapply lock_inv_exclusive; [|exact Hi|exact Hj|exact Hp|exact Hq].
    eapply rtc_lock_inv; [exact Hrun|apply cinit_lock_inv].
  - intros series c Hres Hcold Hrun.
    assert (Hlen : length (c_pcs c) = N).
    { erewrite rtc_length; [|exact Hrun]. apply length_replicate. }
    assert (Hph : phase_before db0 c \/ phase_computed db0 series c \/
                  phase_committed (write_rows (run_rows now st sha series ALL_METRICS) db0) c).
    { eapply rtc_phases; [exact Hres|exact Hcold|exact Hrun|apply cinit_lock_inv|].
      left. split_and!; [done|done|]. intros i p Hi. cbn in Hi.
      by apply lookup_replicate in Hi as [-> _]. }
    unfold all_done. rewrite Forall_lookup.
    destruct Hph as [(Hn & Hdb & Hall)|[(Hn & Hdb & [k Hk] & Hall)|(Hn & Hdb & Hall)]].
    + split; [lia|]. intros HN Hdone. exfalso.
      destruct (c_pcs c !! 0%nat) as [p|] eqn:H0.
      * specialize (Hdone _ _ H0). specialize (Hall _ _ H0).
        destruct p; cbn in Hdone, Hall; contradiction.
      * apply lookup_ge_None in H0. lia.
    + split; [lia|]. intros HN Hdone. exfalso. exact (Hdone _ _ Hk).
    + split; [lia|]. intros HN Hdone. split_and!; [done|done| |].
      * rewrite Hdb. eapply db1_warm. exact Hres.
      * intros i p Hp. specialize (Hdone _ _ Hp). specialize (Hall _ _ Hp).
        rewrite Hdb. destruct p; cbn in Hdone, Hall; try contradiction. by subst.
  - intros err c Hres Hrun. exact (rtc_no_commit _ _ _ _ _ _ _ _ _ _ _ Hres Hrun).
  - intros Hcold. exists (mkC db0 None (replicate N PFailed) N). split_and!.
    + apply callers_fail; [done|by left].
    + unfold all_done. cbn. by apply Forall_replicate.
    + done.
    + done.
    + intros err Hres. apply callers_fail; [done|by right; exists err].
Qed.

Lemma concurrent_single_pass_witness :
  (exists c, rtc (cstep "USW00012345" "h" [] 2020 2020 0 false) (cinit 2 ∅) c /\
     all_done c /\ c_computes c = 1%nat /\
     (forall i p, c_pcs c !! i = Some p -> p = PDone (c_db c))) /\
  (exists c, rtc (cstep "USW00012345" "h" [] 2020 2020 0 true) (cinit 2 ∅) c /\
     all_done c /\ c_computes c = 2%nat /\ c_db c = ∅).
Proof.
  destruct (the_result [] 2020 2020) as [ser|err] eqn:Hres;
    [|vm_compute in Hres; discriminate Hres].
  assert (Hcold : ~ cache_warm "USW00012345" "h" 2020 2020 ∅)
    by (unfold cache_warm, expected_rows_of; vm_compute; congruence).
  destruct (concurrent_single_pass "USW00012345" "h" [] 2020 2020 0 2 ∅)
    as (_ & H2 & _ & H4).
  split.
  - destruct (db0_exec "USW00012345" "h" [] 2020 2020 0 ser ∅ Hres) as [k Hex].
    pose proof (db1_warm "USW00012345" "h" [] 2020 2020 0 ser ∅ Hres) as Hw1.
    assert (Hrun : rtc (cstep "USW00012345" "h" [] 2020 2020 0 false) (cinit 2 ∅)
      (mkC (write_rows (run_rows 0 "USW00012345" "h" ser ALL_METRICS) ∅) None
           [PDone (write_rows (run_rows 0 "USW00012345" "h" ser ALL_METRICS) ∅);
            PDone (write_rows (run_rows 0 "USW00012345" "h" ser ALL_METRICS) ∅)] 1)).
    { eapply rtc_l; [eapply cs_fast_miss with (i := 0%nat); [reflexivity|exact Hcold]|].
      eapply rtc_l; [eapply cs_lock with (i := 0%nat); reflexivity|].
      eapply rtc_l; [eapply cs_recheck_miss with (i := 0%nat); [reflexivity|exact Hcold]|].
      eapply rtc_l; [eapply cs_compute_ok with (i := 0%nat); [reflexivity|exact Hres]|].
      eapply rtc_l; [eapply cs_commit_ok with (i := 0%nat); [reflexivity|exact Hex]|].
      eapply rtc_l; [eapply cs_release with (i := 0%nat); reflexivity|].
      eapply rtc_l; [eapply cs_fast_hit with (i := 1%nat); [reflexivity|exact Hw1]|].
      apply rtc_refl. }
    assert (Hdone : all_done (mkC (write_rows (run_rows 0 "USW00012345" "h" ser ALL_METRICS) ∅)
      None [PDone (write_rows (run_rows 0 "USW00012345" "h" ser ALL_METRICS) ∅);
            PDone (write_rows (run_rows 0 "USW00012345" "h" ser ALL_METRICS) ∅)] 1))
      by repeat constructor.
    destruct (H2 ser _ Hres Hcold Hrun) as [_ H3].
    destruct (H3 ltac:(lia) Hdone) as (Hn & _ & _ & Hsnap).
    eexists. split_and!; [exact Hrun|exact Hdone|exact Hn|exact Hsnap].
  - destruct (H4 Hcold) as (c & Hrun & Hdone & Hn & Hdb & _).
    exists c. split_and!; [exact Hrun|exact Hdone|exact Hn|exact Hdb].
Defined.

(** C9 as stated fails: two callers on a cold store both run the aggregation
    when it raises; and when statements may fail, also when it succeeds but
    each lock holder's [INSERT]s fail, as the foreign-key violation of a
    station missing from [stations] makes them fail. *)
Lemma concurrent_single_pass_counterexample :
  rtc (cstep "USW00012345" "h" [bad_year_line] 2020 2020 0 false) (cinit 2 ∅)
      (mkC ∅ None [PFailed; PFailed] 2) /\
  all_done (mkC ∅ None [PFailed; PFailed] 2) /\
  (exists series, the_result [ex_line] 2020 2020 = Ok series) /\
  rtc (cstep "USW00012345" "h" [ex_line] 2020 2020 0 true) (cinit 2 ∅)
      (mkC ∅ None [PFailed; PFailed] 2).
Proof.
  assert (Hres : the_result [bad_year_line] 2020 2020 = Raise ValueError)
    by (vm_compute; reflexivity).
  assert (Hcold : ~ cache_warm "USW00012345" "h" 2020 2020 ∅)
    by (unfold cache_warm, expected_rows_of; vm_compute; congruence).
  split_and!.
  - apply (callers_fail _ _ _ _ _ _ false ∅ 2 Hcold). right. by exists ValueError.
  - repeat constructor.
  - destruct (the_result [ex_line] 2020 2020) as [ser|err] eqn:Hex;
      [by exists ser|vm_compute in Hex; discriminate Hex].
  - apply (callers_fail _ _ _ _ _ _ true ∅ 2 Hcold). by left.
Qed.

End ConcurrencyClaims.

Module CalendarFacts.

Lemma season_days_cases (Y : Z) (season : string) :
  _expected_days_season Y season =
    if String.eqb season "spring" then Ok 92
    else if String.eqb season "summer" then Ok 92
    else if String.eqb season "autumn" then Ok 91
    else if String.eqb season "winter" then Ok (if isleap Y then 91 else 90)
    else Raise ValueError.
Proof.
  unfold _expected_days_season.
  destruct (String.eqb season "spring"); [reflexivity|].
  destruct (String.eqb season "summer"); [reflexivity|].
  destruct (String.eqb season "autumn"); [reflexivity|].
  destruct (String.eqb season "winter"); [|reflexivity].
  cbn. unfold days_in_month. cbn. destruct (isleap Y); reflexivity.
Qed.

Lemma season_days_bounds (Y : Z) (season : string) (ed : Z) :
  _expected_days_season Y season = Ok ed -> 90 <= ed <= 92.
Proof.
  rewrite season_days_cases.
  destruct (String.eqb season "spring"); [intros [= <-]; lia|].
  destruct (String.eqb season "summer"); [intros [= <-]; lia|].
  destruct (String.eqb season "autumn"); [intros [= <-]; lia|].
  destruct (String.eqb season "winter"); [|discriminate].
  destruct (isleap Y); intros [= <-]; lia.
Qed.

(** The four seasons of a year [Y] (winter being December of [Y - 1] with
    January and February of [Y]) have together as many expected days as the
    calendar year [Y]: 365, or 366 in a leap year. *)
Theorem seasons_partition_year (Y : Z) :
  exists sp su au wi,
    _expected_days_season Y "spring" = Ok sp /\
    _expected_days_season Y "summer" = Ok su /\
    _expected_days_season Y "autumn" = Ok au /\
    _expected_days_season Y "winter" = Ok wi /\
    sp + su + au + wi = _expected_days_year Y.
Proof.
  rewrite !season_days_cases. cbn.
  do 4 eexists. split_and!; try reflexivity.
  unfold _expected_days_year. destruct (isleap Y); reflexivity.
Qed.

(** The expected days of a season do not depend on the year except for
    winter: spring and summer have 92, autumn 91, winter 91 when [Y] is a
    leap year and 90 otherwise; any other season name raises [ValueError]. *)
Theorem season_expected_days_values (Y : Z) (season : string) :
  _expected_days_season Y "spring" = Ok 92 /\
  _expected_days_season Y "summer" = Ok 92 /\
  _expected_days_season Y "autumn" = Ok 91 /\
  _expected_days_season Y "winter" = Ok (if isleap Y then 91 else 90) /\
  (~ In season seasons -> _expected_days_season Y season = Raise ValueError).
Proof.
  rewrite !season_days_cases. cbn. split_and!; try reflexivity.
  intros Hs. unfold seasons in Hs. cbn in Hs.
  destruct (String.eqb_spec season "spring"); [subst; tauto|].
  destruct (String.eqb_spec season "summer"); [subst; tauto|].
  destruct (String.eqb_spec season "autumn"); [subst; tauto|].
  destruct (String.eqb_spec season "winter"); [subst; tauto|].
  reflexivity.
Qed.

Lemma season_expected_days_values_witness :
  _expected_days_season 2023 "winter" = Ok 90 /\
  _expected_days_season 2024 "fall" = Raise ValueError.
Proof.
  split.
  - exact (proj1 (proj2 (proj2 (proj2 (season_expected_days_values 2023 "winter"))))).
  - apply (proj2 (proj2 (proj2 (proj2 (season_expected_days_values 2024 "fall"))))).
    cbn. intros H. repeat destruct H as [H|H]; try discriminate; contradiction.
Defined.

End CalendarFacts.

Module AggregatorFacts.
Import AggFacts.

Local Abbreviation counts_pos a :=
  ((forall k c, yearly_count a !! k = Some c -> 1 <= c) /\
   (forall k c, seasonal_count a !! k = Some c -> 1 <= c)).

Local Abbreviation point_ok s e p :=
  (s <= year p <= e /\ 0 <= present_days p /\
   (value_c p = None <-> present_days p = 0) /\ 90 <= expected_days p <= 366).

Lemma process_lines_skip s e els pre l post :
  (forall a, process_line s e els a l = Ok a) ->
  process_lines s e els empty_acc (pre ++ l :: post) =
    process_lines s e els empty_acc (pre ++ post).
Proof.
  intros Hl. rewrite !process_lines_app.
  destruct (process_lines s e els empty_acc pre) as [a|err]; [|reflexivity].
  cbn [mbind Exc_bind process_lines]. rewrite Hl. reflexivity.
Qed.

Lemma insert_count_pos {K} `{Countable K} (m : gmap K Z) k :
  (forall k c, m !! k = Some c -> 1 <= c) ->
  forall k' c, <[k := default 0 (m !! k) + 1]> m !! k' = Some c -> 1 <= c.
Proof.
  intros Hm k' c Hc. apply lookup_insert_Some in Hc as [[<- <-]|[_ Hc]]; [|eauto].
  destruct (m !! k) as [c0|] eqn:H0; cbn; [specialize (Hm k c0 H0)|]; lia.
Qed.

Lemma accumulate_counts_pos s e el y season v a :
  counts_pos a -> counts_pos (accumulate s e el y season v a).
Proof.
  intros [Hy Hs]. unfold accumulate.
  destruct ((s <=? y) && (y <=? e));
  (destruct season as [[sy sn]|]; [destruct ((s <=? sy) && (sy <=? e))|]);
  split; cbn [yearly_count seasonal_count];
  first [apply insert_count_pos; assumption | assumption].
Qed.

Lemma foldl_counts_pos s e el y season vals a :
  counts_pos a -> counts_pos (foldl (fun a v => accumulate s e el y season v a) a vals).
Proof.
  revert a; induction vals as [|v vals IH]; intros a Ha; [exact Ha|].
  apply IH, accumulate_counts_pos, Ha.
Qed.

Lemma process_lines_counts_pos s e els lines a a' :
  counts_pos a -> process_lines s e els a lines = Ok a' -> counts_pos a'.
Proof.
  revert a; induction lines as [|l lines IH]; intros a Ha H; cbn in H.
  - injection H as <-. exact Ha.
  - apply bind_Ok in H as (a1 & H1 & H).
    apply (IH a1); [|exact H].
    apply process_line_fold in H1 as [->|(el & y & season & vals & ->)]; [exact Ha|].
    apply foldl_counts_pos, Ha.
Qed.

Lemma mean_of_none {K} `{Countable K} (sums : gmap K float) k cnt mo :
  mean_of sums k cnt = Ok mo -> (mo = None <-> cnt = 0).
Proof.
  unfold mean_of. destruct (Z.eqb_spec cnt 0) as [->|Hne].
  - intros [= <-]. tauto.
  - destruct (sums !! k); intros [= <-]. split; [discriminate|lia].
Qed.

Lemma default_count_nonneg {K} `{Countable K} (m : gmap K Z) k :
  (forall k c, m !! k = Some c -> 1 <= c) -> 0 <= default 0 (m !! k).
Proof.
  intros Hm. destruct (m !! k) as [c|] eqn:Hc; cbn; [specialize (Hm k c Hc)|]; lia.
Qed.

Lemma zrange_bounds s e :
  Forall (fun y => s <= y <= e) (zrange s (e + 1)).
Proof.
  apply Forall_forall. intros y Hy.
  apply CacheFacts.zrange_elem in Hy. lia.
Qed.

Lemma Forall2_points {A B} (R : A -> B -> Prop) (P : A -> Prop) (Q : B -> Prop) l1 l2 :
  (forall x y, P x -> R x y -> Q y) -> Forall P l1 -> Forall2 R l1 l2 -> Forall Q l2.
Proof.
  intros HPQ HP H2. induction H2 as [|x y l1 l2 Hxy _ IH]; [constructor|].
  inversion HP; subst. constructor; eauto.
Qed.

Lemma year_series_points a el s e pts :
  counts_pos a -> year_series a el s e = Ok pts -> Forall (fun p => point_ok s e p) pts.
Proof.
  intros [Hy _] H. apply mapM_Ok in H.
  eapply Forall2_points; [|apply zrange_bounds|exact H].
  intros y p Hyr Hp. cbv beta in Hp, Hyr.
  apply bind_Ok in Hp as (mo & Hmo & Hp). injection Hp as <-. cbn [year present_days value_c expected_days].
  apply mean_of_none in Hmo.
  pose proof (default_count_nonneg _ (el, y) Hy).
  split_and!; try lia; try tauto.
  unfold _expected_days_year. destruct (isleap y); lia.
  unfold _expected_days_year. destruct (isleap y); lia.
Qed.

Lemma season_series_points a el season s e pts :
  counts_pos a -> season_series a el season s e = Ok pts -> Forall (fun p => point_ok s e p) pts.
Proof.
  intros [_ Hs] H. apply mapM_Ok in H.
  eapply Forall2_points; [|apply zrange_bounds|exact H].
  intros y p Hyr Hp. cbv beta in Hp, Hyr.
  apply bind_Ok in Hp as (mo & Hmo & Hp).
  apply bind_Ok in Hp as (ed & Hed & Hp). injection Hp as <-. cbn [year present_days value_c expected_days].
  apply mean_of_none in Hmo. apply CalendarFacts.season_days_bounds in Hed.
  pose proof (default_count_nonneg _ (el, y, season) Hs).
  split_and!; try lia; tauto.
Qed.

Lemma add_seasons_points a el low s e ss out out' :
  counts_pos a ->
  (forall k pts, out !! k = Some pts -> Forall (fun p => point_ok s e p) pts) ->
  add_seasons a el low s e ss out = Ok out' ->
  forall k pts, out' !! k = Some pts -> Forall (fun p => point_ok s e p) pts.
Proof.
  intros Ha. revert out; induction ss as [|season ss IH]; intros out Hout H;
    cbn [add_seasons] in H.
  - injection H as <-. exact Hout.
  - apply bind_Ok in H as (pts0 & H0 & H).
    eapply IH; [|exact H].
    intros k pts Hk. apply lookup_insert_Some in Hk as [[_ <-]|[_ Hk]]; [|eauto].
    eapply season_series_points; eassumption.
Qed.

Lemma build_output_points a s e els out out' :
  counts_pos a ->
  (forall k pts, out !! k = Some pts -> Forall (fun p => point_ok s e p) pts) ->
  build_output a s e els out = Ok out' ->
  forall k pts, out' !! k = Some pts -> Forall (fun p => point_ok s e p) pts.
Proof.
  intros Ha. revert out; induction els as [|el els IH]; intros out Hout H;
    cbn [build_output] in H.
  - injection H as <-. exact Hout.
  - apply bind_Ok in H as (ys & Hys & H).
    apply bind_Ok in H as (o1 & Ho1 & H).
    eapply IH; [|exact H].
    eapply add_seasons_points; [exact Ha| |exact Ho1].
    intros k pts Hk. apply lookup_insert_Some in Hk as [[_ <-]|[_ Hk]]; [|eauto].
    eapply year_series_points; eassumption.
Qed.

(** Lines that cannot contribute are skipped: a line shorter than 21
    characters, and a line whose year and month fields parse but whose element
    is not requested, can be removed from the file without changing the result
    of [compute_means], exceptions included. *)
Theorem ignored_lines_droppable s e els pre l post :
  ((String.length l < 21)%nat \/
   (exists y m, parse_int (slice 11 15 l) = Some y /\ parse_int (slice 15 17 l) = Some m /\
                existsb (String.eqb (slice 17 21 l)) els = false)) ->
  compute_means (pre ++ l :: post) s e els = compute_means (pre ++ post) s e els.
Proof.
  intros Hl. unfold compute_means. rewrite process_lines_skip; [reflexivity|].
  intros a. destruct (decide (String.length l < 21)%nat) as [Hlt|Hge].
  - unfold process_line. replace (String.length l <? 21)%nat with true
      by (symmetry; by apply Nat.ltb_lt). reflexivity.
  - destruct Hl as [Hlt|(y & m & Hy & Hm & Hel)]; [lia|].
    apply (process_line_unrequested s e els a l y m); [lia|done|done|done].
Qed.

(** Every point [compute_means] returns, under every key, lies in the
    requested year range, has [present_days >= 0], has [value_c = None]
    exactly when [present_days = 0], and has between 90 and 366 expected
    days. *)
Theorem compute_means_points lines s e els out :
  compute_means lines s e els = Ok out ->
  forall k pts p, out !! k = Some pts -> p ∈ pts ->
    s <= year p <= e /\ 0 <= present_days p /\
    (value_c p = None <-> present_days p = 0) /\ 90 <= expected_days p <= 366.
Proof.
  unfold compute_means. intros H k pts p Hk Hp.
  apply bind_Ok in H as (a & Ha & H).
  assert (Hpos : counts_pos a).
  { eapply process_lines_counts_pos; [|exact Ha].
    split; intros k' c Hc; cbn in Hc; rewrite lookup_empty in Hc; discriminate. }
  pose proof (build_output_points a s e els ∅ out Hpos) as Hall.
  specialize (Hall ltac:(intros k' pts' Hk'; rewrite lookup_empty in Hk'; discriminate) H k pts Hk).
  rewrite Forall_forall in Hall. exact (Hall p Hp).
Qed.

Lemma ignored_lines_droppable_witness :
  compute_means ([] ++ "USW00012345202001PRCP"%string :: [ex_line]) 2019 2020 ["TMIN"; "TMAX"]%string =
  compute_means ([] ++ [ex_line]) 2019 2020 ["TMIN"; "TMAX"]%string.
Proof.
  apply ignored_lines_droppable. right. exists 2020, 1.
  split_and!; vm_compute; reflexivity.
Defined.

Lemma compute_means_points_witness :
  match compute_means [ex_line] 2019 2020 ["TMIN"; "TMAX"]%string with
  | Ok out => forall k pts p, out !! k = Some pts -> p ∈ pts ->
      2019 <= year p <= 2020 /\ 90 <= expected_days p <= 366
  | Raise _ => False
  end.
Proof.
  destruct (compute_means [ex_line] 2019 2020 ["TMIN"; "TMAX"]%string) as [out|err] eqn:H.
  - intros k pts p Hk Hp.
    destruct (compute_means_points _ _ _ _ out H k pts p Hk Hp) as (Hy & _ & _ & Hd).
    split; assumption.
  - vm_compute in H. discriminate.
Defined.

End AggregatorFacts.

Module CacheExtraFacts.
Import AggFacts Cache CacheFacts.

Lemma write_rows_is_Some l db k : is_Some (db !! k) -> is_Some (write_rows l db !! k).
Proof.
  revert db; induction l as [|[k' v] l IH]; intros db Hk; [exact Hk|].
  rewrite write_rows_cons. apply IH.
  destruct (decide (k' = k)) as [->|Hne].
  - rewrite lookup_insert_eq. by eexists.
  - by rewrite lookup_insert_ne by done.
Qed.

(** The points of a metric read back after the writes of a run. *)
Lemma cached_points_written lines s e series now st sha db m pts :
  compute_means lines s e ["TMIN"; "TMAX"]%string = Ok series ->
  m ∈ ALL_METRICS -> series !! m = Some pts ->
  cached_point (write_rows (run_rows now st sha series ALL_METRICS) db) st sha m
    <$> zrange s (e + 1) = pts.
Proof.
  intros Hcm Hm Hpts.
  destruct (compute_means_shape lines s e series Hcm m) as (pts' & Hpts' & Hy);
    [by apply list_elem_of_In|].
  rewrite Hpts in Hpts'. injection Hpts' as <-.
  assert (Hz : zrange s (e + 1) = year <$> pts) by (rewrite <- Hy; symmetry; apply map_is_fmap).
  rewrite Hz.
  assert (Hall : forall p, p ∈ pts ->
    cached_point (write_rows (run_rows now st sha series ALL_METRICS) db) st sha m (year p) = p).
  { intros p Hp. unfold cached_point.
    rewrite (write_rows_in _ _ _ (mkRow sha (value_c p) (present_days p) (expected_days p) now)).
    - cbn. rewrite String.eqb_refl. destruct p; reflexivity.
    - by apply (run_rows_NoDup lines s e).
    - by eapply in_run_rows. }
  clear Hy Hz Hpts. induction pts as [|p pts IH]; [reflexivity|].
  cbn. rewrite Hall by apply list_elem_of_here. f_equal.
  apply IH. intros q Hq. apply Hall, elem_of_cons. by right.
Qed.

Lemma load_after_run lines s e series now st sha db metrics :
  compute_means lines s e ["TMIN"; "TMAX"]%string = Ok series ->
  metrics <> [] -> Forall (fun m => m ∈ ALL_METRICS) metrics ->
  load_cached_series (write_rows (run_rows now st sha series ALL_METRICS) db) st sha s e metrics =
    Ok ((fun m => {| key := m; series_sha256 := sha; points := default [] (series !! m) |})
        <$> metrics).
Proof.
  intros Hcm Hne Hall. rewrite load_cached_series_eq by done. f_equal.
  apply list_fmap_ext. intros i m Hi.
  assert (Hm : m ∈ ALL_METRICS).
  { rewrite Forall_lookup in Hall. exact (Hall i m Hi). }
  destruct (compute_means_shape lines s e series Hcm m) as (pts & Hpts & _);
    [by apply list_elem_of_In|].
  rewrite Hpts. cbn [default]. f_equal. by eapply cached_points_written.
Qed.

(** With an empty year range ([end_year < start_year]) the expected row count
    is not positive, so a population call returns at once (unless its first
    query raises), with no lock, no computation and no write; and reading the
    cache gives every requested metric an empty point list. *)
Theorem empty_range_no_work fail_at now db st sha lines s e metrics :
  e < s -> fail_at <> Some 0%nat -> metrics <> [] ->
  ensure_cached_metrics fail_at now db st sha lines s e = (Ok tt, db, []) /\
  load_cached_series db st sha s e metrics =
    Ok ((fun m => {| key := m; series_sha256 := sha; points := [] |}) <$> metrics).
Proof.
  intros Hes Hf Hne. split.
  - apply ensure_warm; [done|]. rewrite length_ALL_METRICS. unfold count_rows. lia.
  - rewrite load_cached_series_eq by done. f_equal.
    apply list_fmap_ext. intros i m _. unfold zrange.
    replace (Z.to_nat (e + 1 - s)) with 0%nat by lia. reflexivity.
Qed.

(** A population call for [(station_id, sha256, start_year, end_year)]
    never deletes a row and changes no row outside the keys
    [(station_id, metric, year)] with [metric] in [ALL_METRICS] and [year] in
    [start_year .. end_year]: rows of other stations, other metrics or other
    years keep their values. *)
Theorem ensure_frame fail_at now db st sha lines s e r db' evs :
  ensure_cached_metrics fail_at now db st sha lines s e = (r, db', evs) ->
  (forall k, is_Some (db !! k) -> is_Some (db' !! k)) /\
  (forall st' m y, st' <> st \/ ~ In m ALL_METRICS \/ y < s \/ e < y ->
     db' !! (st', m, y) = db !! (st', m, y)).
Proof.
  intros H. apply ensure_cases in H as [(-> & _ & _)|(_ & series & Hcm & ->)].
  { split; [done|]. intros; reflexivity. }
  split.
  - intros k. apply write_rows_is_Some.
  - intros st' m y Hout. apply write_rows_notin.
    rewrite (run_rows_keys lines s e series now st sha Hcm), elem_of_run_keys.
    intros (m' & y' & Heq & Hm & Hy). injection Heq as -> -> ->.
    apply zrange_elem in Hy. apply list_elem_of_In in Hm.
    destruct Hout as [?|[?|[?|?]]]; (done || lia).
Qed.

(** Round trip: after a population call that committed, reading any
    non-empty list of metrics of [ALL_METRICS] for the same station, hash and
    range returns, for each metric, exactly the points [compute_means]
    computed from the file. *)
Theorem populate_then_load fail_at now db st sha lines s e r db' evs series metrics :
  ensure_cached_metrics fail_at now db st sha lines s e = (r, db', evs) ->
  EvCommit ∈ evs ->
  compute_means lines s e ["TMIN"; "TMAX"]%string = Ok series ->
  metrics <> [] -> Forall (fun m => In m ALL_METRICS) metrics ->
  load_cached_series db' st sha s e metrics =
    Ok ((fun m => {| key := m; series_sha256 := sha; points := default [] (series !! m) |})
        <$> metrics).
Proof.
  intros H Hc Hcm Hne Hall.
  apply ensure_cases in H as [(_ & Hnc & _)|(_ & series' & Hcm' & ->)]; [done|].
  rewrite Hcm in Hcm'. injection Hcm' as <-.
  apply (load_after_run lines); [done|done|].
  eapply Forall_impl; [exact Hall|]. intros m Hm. by apply list_elem_of_In.
Qed.

Lemma empty_range_no_work_witness :
  ensure_cached_metrics None 0 ∅ "USW00012345" "h" [ex_line] 2021 2020 = (Ok tt, ∅, []) /\
  load_cached_series ∅ "USW00012345" "h" 2021 2020 ["tmin_year"; "tmax_winter"]%string =
    Ok [{| key := "tmin_year"; series_sha256 := "h"; points := [] |};
        {| key := "tmax_winter"; series_sha256 := "h"; points := [] |}]%string.
Proof.
  apply (empty_range_no_work None 0 ∅ "USW00012345" "h" [ex_line] 2021 2020
           ["tmin_year"; "tmax_winter"]%string); [lia | discriminate | discriminate].
Defined.

Lemma ensure_frame_witness :
  let db := {[ ("USW99999999"%string, "tmin_year"%string, 2020) := mkRow "x" None 0 366 7 ]} in
  let '(r, db', evs) :=
    ensure_cached_metrics None 0 db "USW00012345" "h" [ex_line] 2020 2020 in
  db' !! ("USW99999999"%string, "tmin_year"%string, 2020) = Some (mkRow "x" None 0 366 7).
Proof.
  intros db.
  destruct (ensure_cached_metrics None 0 db "USW00012345" "h" [ex_line] 2020 2020)
    as [[r db'] evs] eqn:Hx.
  destruct (ensure_frame None 0 db "USW00012345" "h" [ex_line] 2020 2020 r db' evs Hx)
    as [_ Hout].
  rewrite Hout by (left; discriminate).
  apply lookup_singleton_Some. by split.
Defined.

Lemma populate_then_load_witness :
  let '(r, db', evs) :=
    ensure_cached_metrics None 0 ∅ "USW00012345" "h" [ex_line] 2020 2020 in
  match compute_means [ex_line] 2020 2020 ["TMIN"; "TMAX"]%string with
  | Ok series =>
      load_cached_series db' "USW00012345" "h" 2020 2020 ["tmax_year"]%string =
        Ok [{| key := "tmax_year"; series_sha256 := "h";
               points := default [] (series !! "tmax_year"%string) |}]
  | Raise _ => False
  end.
Proof.
  assert (He : (ensure_cached_metrics None 0 ∅ "USW00012345" "h" [ex_line] 2020 2020).2
               = [EvLock; EvCompute; EvCommit; EvUnlock]) by (vm_compute; reflexivity).
  destruct (ensure_cached_metrics None 0 ∅ "USW00012345" "h" [ex_line] 2020 2020)
    as [[r db'] evs] eqn:Hx.
  cbn in He. subst evs.
  destruct (compute_means [ex_line] 2020 2020 ["TMIN"; "TMAX"]%string) as [series|err] eqn:Hc.
  - exact (populate_then_load None 0 ∅ "USW00012345" "h" [ex_line] 2020 2020 r db'
             [EvLock; EvCompute; EvCommit; EvUnlock] series ["tmax_year"]%string Hx
             ltac:(set_solver) Hc ltac:(discriminate)
             ltac:(constructor; [cbn; auto 12 | constructor])).
  - vm_compute in Hc. discriminate.
Defined.

End CacheExtraFacts.

Module ApiFacts.
Import AggFacts Cache CacheFacts Api.

Lemma is_metric_spec m : is_metric m = true <-> In m ALL_METRICS.
Proof.
  unfold is_metric. rewrite existsb_exists. split.
  - intros (m' & Hin & Heq). apply String.eqb_eq in Heq. by subst.
  - intros Hin. exists m. split; [done|apply String.eqb_refl].
Qed.

Lemma existsb_not_metric (l : list string) :
  existsb (fun m => negb (is_metric m)) l = false <-> Forall (fun m => In m ALL_METRICS) l.
Proof.
  rewrite Forall_forall. split.
  - intros H m Hm. apply is_metric_spec.
    destruct (is_metric m) eqn:Hi; [done|].
    exfalso. assert (existsb (fun m => negb (is_metric m)) l = true) as Ht; [|congruence].
    apply existsb_exists. exists m. split; [by apply list_elem_of_In|]. by rewrite Hi.
  - intros H. apply not_true_iff_false. intros Ht.
    apply existsb_exists in Ht as (m & Hm & Hn).
    apply list_elem_of_In, H, is_metric_spec in Hm. by rewrite Hm in Hn.
Qed.

Lemma gtb_false_iff a b : (a >? b) = false <-> a <= b.
Proof. rewrite Z.gtb_ltb. apply Z.ltb_ge. Qed.


Lemma split_comma_app m t :
  ~ In ","%char (list_ascii_of_string m) ->
  split_comma (m ++ String ","%char t) = m :: split_comma t.
Proof.
  induction m as [|c m IH]; intros Hm; [reflexivity|].
  cbn [list_ascii_of_string In] in Hm. change (String c m +:+ String "," t)%string with (String c (m +:+ String "," t))%string. cbn [split_comma]. rewrite IH by tauto.
  destruct (Ascii.eqb_spec c ","); [subst; tauto|reflexivity].
Qed.

Lemma split_comma_single m :
  ~ In ","%char (list_ascii_of_string m) -> split_comma m = [m].
Proof.
  induction m as [|c m IH]; intros Hm; [reflexivity|].
  cbn [list_ascii_of_string In] in Hm. cbn [split_comma]. rewrite IH by tauto.
  destruct (Ascii.eqb_spec c ","); [subst; tauto|reflexivity].
Qed.

(** A request the endpoint rejects with an HTTP error leaves the cache as it
    was and runs no population: the status is 422 when a year is below 1700,
    else 404 when the station is unknown, else 400 when
    [start_year > end_year], [end_year > MAX_YEAR], the metric list has no
    non-blank name, or one of its names is not in [ALL_METRICS]. No other
    HTTP error is produced. *)
Theorem api_rejections stations max_year fail_at now db sha lines st s e metrics c db' evs :
  api_station_series stations max_year fail_at now db sha lines st s e metrics =
    (HttpError c, db', evs) ->
  db' = db /\ evs = [] /\
  ((c = 422 /\ (s < 1700 \/ e < 1700)) \/
   (c = 404 /\ 1700 <= s /\ 1700 <= e /\ st ∉ stations) \/
   (c = 400 /\ 1700 <= s /\ 1700 <= e /\ st ∈ stations /\
    (e < s \/ max_year < e \/ requested_metrics metrics = [] \/
     exists m, In m (requested_metrics metrics) /\ ~ In m ALL_METRICS))).
Proof.
  unfold api_station_series.
  destruct ((s <? 1700) || (e <? 1700)) eqn:H422.
  { intros [= <- <- <-]. split_and!; [done|done|]. left. split; [done|].
    apply orb_true_iff in H422 as [H|H]; apply Z.ltb_lt in H; lia. }
  apply orb_false_iff in H422 as [Hs He]. apply Z.ltb_ge in Hs, He.
  destruct (bool_decide (st ∈ stations)) eqn:Hst; cbn [negb].
  2:{ intros [= <- <- <-]. split_and!; [done|done|]. right. left.
      split_and!; [done|lia|lia|]. by apply bool_decide_eq_false in Hst. }
  apply bool_decide_eq_true in Hst.
  destruct (s >? e) eqn:Hse.
  { intros [= <- <- <-]. split_and!; [done|done|]. right. right.
    split_and!; [done|lia|lia|done|]. left. apply Z.gtb_lt in Hse. lia. }
  destruct (e >? max_year) eqn:Hmax.
  { intros [= <- <- <-]. split_and!; [done|done|]. right. right.
    split_and!; [done|lia|lia|done|]. right. left. apply Z.gtb_lt in Hmax. lia. }
  cbv zeta.
  destruct (match requested_metrics metrics with [] => true | _ :: _ => false end
            || existsb (fun m => negb (is_metric m)) (requested_metrics metrics)) eqn:Hreq.
  { intros [= <- <- <-]. split_and!; [done|done|]. right. right.
    split_and!; [done|lia|lia|done|]. right. right.
    apply orb_true_iff in Hreq as [H|H].
    - left. destruct (requested_metrics metrics); done.
    - right. apply existsb_exists in H as (m & Hm & Hn).
      exists m. split; [done|]. rewrite <- is_metric_spec. by destruct (is_metric m). }
  destruct (ensure_cached_metrics fail_at now db st sha lines s e) as [[r db1] evs1].
  destruct r as [u|err]; [|discriminate].
  destruct (load_cached_series db1 st sha s e (requested_metrics metrics)); discriminate.
Qed.

(** A successful answer only follows a valid request, echoes the station and
    the range, and carries one series per requested name, in the order and
    with the repetitions of the request, each a metric of [ALL_METRICS] with
    the file's hash and one point per year [start_year .. end_year] in
    ascending order. *)
Theorem api_response_shape stations max_year fail_at now db sha lines st s e metrics resp db' evs :
  api_station_series stations max_year fail_at now db sha lines st s e metrics =
    (Respond resp, db', evs) ->
  1700 <= s <= e /\ e <= max_year /\ st ∈ stations /\
  resp_station_id resp = st /\ resp_start_year resp = s /\ resp_end_year resp = e /\
  requested_metrics metrics <> [] /\ key <$> resp_series resp = requested_metrics metrics /\
  Forall (fun so => In (key so) ALL_METRICS /\ series_sha256 so = sha /\
                    year <$> points so = zrange s (e + 1)) (resp_series resp).
Proof.
  unfold api_station_series.
  destruct ((s <? 1700) || (e <? 1700)) eqn:H422; [discriminate|].
  apply orb_false_iff in H422 as [Hs He]. apply Z.ltb_ge in Hs, He.
  destruct (bool_decide (st ∈ stations)) eqn:Hst; cbn [negb]; [|discriminate].
  apply bool_decide_eq_true in Hst.
  destruct (s >? e) eqn:Hse; [discriminate|]. apply gtb_false_iff in Hse.
  destruct (e >? max_year) eqn:Hmax; [discriminate|]. apply gtb_false_iff in Hmax.
  cbv zeta.
  destruct (match requested_metrics metrics with [] => true | _ :: _ => false end
            || existsb (fun m => negb (is_metric m)) (requested_metrics metrics)) eqn:Hreq;
    [discriminate|].
  apply orb_false_iff in Hreq as [Hne Hall].
  assert (Hne' : requested_metrics metrics <> []) by (by destruct (requested_metrics metrics)).
  apply existsb_not_metric in Hall.
  destruct (ensure_cached_metrics fail_at now db st sha lines s e) as [[r db1] evs1].
  destruct r as [u|err]; [|discriminate].
  rewrite load_cached_series_eq by exact Hne'.
  intros [= <- <- <-]. cbn [resp_station_id resp_start_year resp_end_year resp_series].
  split_and!; try (done || lia).
  - rewrite <- list_fmap_compose. cbn. apply list_fmap_id.
  - rewrite Forall_fmap. eapply Forall_impl; [exact Hall|]. intros m Hm. cbn.
    split_and!; [done|done|].
    rewrite <- list_fmap_compose. rewrite <- (list_fmap_id (zrange s (e + 1))) at 2.
    apply list_fmap_ext. intros i y _. cbn. unfold cached_point.
    destruct (db1 !! (st, m, y)) as [r|]; [destruct (String.eqb (row_sha256 r) sha)|];
      reflexivity.
Qed.

(** On a cold cache (fewer matching rows than [years * 10]) and with no
    failing statement, a valid request aggregates the file once: it answers
    the series [compute_means] computed, one per requested metric, and commits
    the run's rows; when the aggregation raises, the exception escapes the
    handler and the cache is unchanged. *)
Theorem api_cold_cache stations max_year now db sha lines st s e metrics :
  1700 <= s <= e -> e <= max_year -> st ∈ stations ->
  requested_metrics metrics <> [] ->
  Forall (fun m => In m ALL_METRICS) (requested_metrics metrics) ->
  count_rows db st sha s e < (e - s + 1) * 10 ->
  api_station_series stations max_year None now db sha lines st s e metrics =
    match compute_means lines s e ["TMIN"; "TMAX"]%string with
    | Ok series =>
        (Respond {| resp_station_id := st; resp_start_year := s; resp_end_year := e;
                    resp_series := (fun m => {| key := m; series_sha256 := sha;
                                                points := default [] (series !! m) |})
                                   <$> requested_metrics metrics |},
         write_rows (run_rows now st sha series ALL_METRICS) db,
         [EvLock; EvCompute; EvCommit; EvUnlock])
    | Raise err => (ServerError err, db, [EvLock; EvCompute; EvUnlock])
    end.
Proof.
  intros Hse Hmax Hst Hne Hall Hcold. unfold api_station_series.
  replace ((s <? 1700) || (e <? 1700)) with false
    by (symmetry; apply orb_false_iff; split; apply Z.ltb_ge; lia).
  replace (bool_decide (st ∈ stations)) with true by (symmetry; by apply bool_decide_eq_true).
  cbn [negb].
  replace (s >? e) with false by (symmetry; apply gtb_false_iff; lia).
  replace (e >? max_year) with false by (symmetry; apply gtb_false_iff; lia).
  cbv zeta.
  replace (match requested_metrics metrics with [] => true | _ :: _ => false end
           || existsb (fun m => negb (is_metric m)) (requested_metrics metrics)) with false.
  2:{ symmetry. apply orb_false_iff. split; [by destruct (requested_metrics metrics)|].
      by apply existsb_not_metric. }
  rewrite ensure_cold by exact Hcold.
  destruct (compute_means lines s e ["TMIN"; "TMAX"]%string) as [series|err] eqn:Hcm;
    [|reflexivity].
  rewrite (CacheExtraFacts.load_after_run lines s e series now st sha db); [reflexivity|done|done|].
  eapply Forall_impl; [exact Hall|]. intros m Hm. by apply list_elem_of_In.
Qed.

(** Round trip of the [metrics] parameter: joining with commas a list of
    non-empty names that contain no comma and no surrounding whitespace, then
    splitting, stripping and dropping blank pieces as the endpoint does, gives
    the list back. *)
Theorem requested_metrics_join ms :
  Forall (fun m => m <> ""%string /\ str_strip m = m /\
                   ~ In ","%char (list_ascii_of_string m)) ms ->
  requested_metrics (join_comma ms) = ms.
Proof.
  intros Hall. unfold requested_metrics.
  assert (Hsplit : split_comma (join_comma ms) = match ms with [] => [""%string] | _ => ms end).
  { induction ms as [|m ms IH]; [reflexivity|].
    apply Forall_cons in Hall as [(_ & _ & Hc) Hall].
    destruct ms as [|m' ms'].
    - cbn [join_comma]. by apply split_comma_single.
    - change (join_comma (m :: m' :: ms')) with (m ++ String ","%char (join_comma (m' :: ms')))%string.
      rewrite split_comma_app by exact Hc. rewrite IH by exact Hall. reflexivity. }
  rewrite Hsplit. destruct ms as [|m0 ms0]; [reflexivity|].
  clear Hsplit. revert Hall. generalize (m0 :: ms0) as l. intros l Hall.
  induction l as [|m l IH]; [reflexivity|].
  apply Forall_cons in Hall as [(Hne & Hstrip & _) Hall].
  cbn [List.filter]. rewrite Hstrip.
  destruct (String.eqb_spec m ""); [done|]. cbn [negb map]. rewrite Hstrip. f_equal. by apply IH.
Qed.

Lemma api_rejections_witness :
  let '(resp, db', evs) :=
    api_station_series {["USW00012345"%string]} 2024 None 0 ∅ "h" [ex_line]
      "USW00012345" 2020 2020 "tmin_year, tmean_year" in
  resp = HttpError 400 /\ db' = ∅ /\ evs = [] /\
  exists m, In m (requested_metrics "tmin_year, tmean_year") /\ ~ In m ALL_METRICS.
Proof.
  assert (Hr : (api_station_series {["USW00012345"%string]} 2024 None 0 ∅ "h" [ex_line]
                  "USW00012345" 2020 2020 "tmin_year, tmean_year").1.1 = HttpError 400)
    by (vm_compute; reflexivity).
  destruct (api_station_series {["USW00012345"%string]} 2024 None 0 ∅ "h" [ex_line]
              "USW00012345" 2020 2020 "tmin_year, tmean_year") as [[resp db'] evs] eqn:Hx.
  cbn in Hr. subst resp.
  destruct (api_rejections _ _ _ _ _ _ _ _ _ _ _ _ _ _ Hx)
    as (-> & -> & [[? _] | [[? _] | (_ & _ & _ & _ & Hwhy)]]); try discriminate.
  split_and!; try reflexivity.
  destruct Hwhy as [Hlt | [Hlt | [Hnil | Hm]]]; [lia | lia | vm_compute in Hnil; discriminate | exact Hm].
Defined.

Lemma api_response_shape_witness :
  let '(resp, db', evs) :=
    api_station_series {["USW00012345"%string]} 2024 None 0 ∅ "h" [ex_line]
      "USW00012345" 2019 2020 " tmax_year ,tmin_winter,," in
  match resp with
  | Respond r =>
      key <$> resp_series r = ["tmax_year"; "tmin_winter"]%string /\
      Forall (fun so => year <$> points so = [2019; 2020]) (resp_series r)
  | _ => False
  end.
Proof.
  assert (Hr : match (api_station_series {["USW00012345"%string]} 2024 None 0 ∅ "h" [ex_line]
                  "USW00012345" 2019 2020 " tmax_year ,tmin_winter,,").1.1 with
               | Respond _ => true | _ => false end = true)
    by (vm_compute; reflexivity).
  destruct (api_station_series {["USW00012345"%string]} 2024 None 0 ∅ "h" [ex_line]
              "USW00012345" 2019 2020 " tmax_year ,tmin_winter,,") as [[resp db'] evs] eqn:Hx.
  cbn in Hr. destruct resp as [r| |]; [|discriminate Hr|discriminate Hr].
  destruct (api_response_shape _ _ _ _ _ _ _ _ _ _ _ _ _ _ Hx)
    as (_ & _ & _ & _ & _ & _ & _ & Hkeys & Hall).
  split.
  - rewrite Hkeys. vm_compute. reflexivity.
  - eapply Forall_impl; [exact Hall|]. intros so (_ & _ & Hy). exact Hy.
Defined.

Lemma api_cold_cache_witness :
  api_station_series {["USW00012345"%string]} 2024 None 0 ∅ "h" [ex_line]
    "USW00012345" 2020 2020 "tmin_year,tmax_year" =
  match compute_means [ex_line] 2020 2020 ["TMIN"; "TMAX"]%string with
  | Ok series =>
      (Respond {| resp_station_id := "USW00012345"; resp_start_year := 2020; resp_end_year := 2020;
                  resp_series := (fun m => {| key := m; series_sha256 := "h";
                                              points := default [] (series !! m) |})
                                 <$> requested_metrics "tmin_year,tmax_year" |},
       write_rows (run_rows 0 "USW00012345" "h" series ALL_METRICS) ∅,
       [EvLock; EvCompute; EvCommit; EvUnlock])
  | Raise err => (ServerError err, ∅, [EvLock; EvCompute; EvUnlock])
  end.
Proof.
  apply api_cold_cache.
  - lia.
  - lia.
  - set_solver.
  - vm_compute. discriminate.
  - vm_compute. constructor; [auto 12 | constructor; [auto 12 | constructor]].
  - vm_compute. reflexivity.
Defined.

Lemma requested_metrics_join_witness :
  requested_metrics (join_comma ["tmin_year"; "tmax_winter"]%string)
  = ["tmin_year"; "tmax_winter"]%string.
Proof.
  apply requested_metrics_join.
  constructor; [|constructor; [|constructor]];
    split_and!; try discriminate; try (vm_compute; reflexivity);
    cbn; intros H; repeat destruct H as [H|H]; try discriminate; contradiction.
Defined.

End ApiFacts.

Module InventoryFacts.
Import AggFacts Inventory.

Local Abbreviation cols_kept c c' :=
  ((forall v, tmin_first_year c = Some v -> tmin_first_year c' = Some v) /\
   (forall v, tmin_last_year c = Some v -> tmin_last_year c' = Some v) /\
   (forall v, tmax_first_year c = Some v -> tmax_first_year c' = Some v) /\
   (forall v, tmax_last_year c = Some v -> tmax_last_year c' = Some v)).

Lemma import_lines_app stations tbl pre rest :
  import_lines stations tbl (pre ++ rest) =
    (t ← import_lines stations tbl pre; import_lines stations t rest).
Proof.
  revert tbl; induction pre as [|l pre IH]; intros tbl; [reflexivity|].
  cbn [app import_lines]. destruct (import_line stations tbl l) as [t|err]; [|reflexivity].
  exact (IH t).
Qed.

Lemma coalesce_keep o n v : o = Some v -> coalesce o n = Some v.
Proof. by intros ->. Qed.

Lemma upsert_coverage_keep stations id c0 tbl tbl' k c :
  upsert_coverage stations id c0 tbl = Ok tbl' -> tbl !! k = Some c ->
  exists c', tbl' !! k = Some c' /\ cols_kept c c'.
Proof.
  unfold upsert_coverage. intros H Hk.
  destruct (tbl !! id) as [old|] eqn:Hid.
  - injection H as <-. destruct (decide (id = k)) as [<-|Hne].
    + rewrite lookup_insert_eq. eexists. split; [reflexivity|].
      rewrite Hid in Hk. injection Hk as <-. cbn.
      split_and!; intros v; apply coalesce_keep.
    + rewrite lookup_insert_ne by done. exists c. split; [done|]. split_and!; auto.
  - destruct (bool_decide (id ∈ stations)); [|discriminate]. injection H as <-.
    destruct (decide (id = k)) as [<-|Hne]; [congruence|].
    rewrite lookup_insert_ne by done. exists c. split; [done|]. split_and!; auto.
Qed.

Lemma import_line_keep stations tbl l tbl' k c :
  import_line stations tbl l = Ok tbl' -> tbl !! k = Some c ->
  exists c', tbl' !! k = Some c' /\ cols_kept c c'.
Proof.
  unfold import_line. intros H Hk.
  apply bind_Ok in H as (f & _ & H). apply bind_Ok in H as (la & _ & H).
  destruct (String.eqb _ "TMIN"); [by eapply upsert_coverage_keep|].
  destruct (String.eqb _ "TMAX"); [by eapply upsert_coverage_keep|].
  injection H as <-. exists c. split; [done|]. split_and!; auto.
Qed.

Lemma import_lines_keep stations tbl lines tbl' k c :
  import_lines stations tbl lines = Ok tbl' -> tbl !! k = Some c ->
  exists c', tbl' !! k = Some c' /\ cols_kept c c'.
Proof.
  revert tbl c; induction lines as [|l lines IH]; intros tbl c H Hk; cbn in H.
  - injection H as <-. exists c. split; [done|]. split_and!; auto.
  - apply bind_Ok in H as (t & Ht & H).
    destruct (import_line_keep stations tbl l t k c Ht Hk) as (c1 & Hc1 & K1).
    destruct (IH t c1 H Hc1) as (c2 & Hc2 & K2). exists c2. split; [done|].
    destruct K1 as (A1 & B1 & C1 & D1). destruct K2 as (A2 & B2 & C2 & D2).
    split_and!; auto.
Qed.

(** The columns of an element that are still NULL stay NULL through a line
    that is not a line of that element for that station. *)
Lemma import_line_other stations tbl l tbl' id el :
  (el = "TMIN"%string \/ el = "TMAX"%string) ->
  import_line stations tbl l = Ok tbl' ->
  (str_strip (slice 0 11 l) = id -> str_strip (slice 31 35 l) <> el) ->
  (forall c, tbl !! id = Some c -> element_years el c = (None, None)) ->
  forall c, tbl' !! id = Some c -> element_years el c = (None, None).
Proof.
  intros Hel H Hother Hnull. unfold import_line in H.
  apply bind_Ok in H as (f & _ & H). apply bind_Ok in H as (la & _ & H).
  set (id' := str_strip (slice 0 11 l)) in *. set (el' := str_strip (slice 31 35 l)) in *.
  assert (Hup : forall c0, (el' = el -> False) \/ id' <> id ->
            upsert_coverage stations id' c0 tbl = Ok tbl' ->
            (id' = id -> element_years el c0 = (None, None)) ->
            forall c, tbl' !! id = Some c -> element_years el c = (None, None)).
  { intros c0 Hdiff Hu Hc0 c Hc. unfold upsert_coverage in Hu.
    destruct (decide (id' = id)) as [Heq|Hne].
    - subst id'. rewrite Heq in Hu, Hc0. specialize (Hc0 eq_refl).
      destruct (tbl !! id) as [old|] eqn:Hold.
      + injection Hu as <-. rewrite lookup_insert_eq in Hc. injection Hc as <-.
        specialize (Hnull old eq_refl). revert Hnull Hc0. unfold element_years. cbn.
        destruct (String.eqb el "TMIN");
          intros [= -> ->] [= -> ->]; reflexivity.
      + destruct (bool_decide (id ∈ stations)); [|discriminate]. injection Hu as <-.
        rewrite lookup_insert_eq in Hc. by injection Hc as <-.
    - destruct (tbl !! id') as [old|];
        [|destruct (bool_decide (id' ∈ stations)); [|discriminate]];
        injection Hu as <-; rewrite lookup_insert_ne in Hc by done; by apply Hnull. }
  assert (Hd : (el' = el -> False) \/ id' <> id).
  { destruct (decide (id' = id)) as [Heq|Hne]; [left; by apply Hother|by right]. }
  destruct (String.eqb_spec el' "TMIN") as [HT|HT].
  { apply (Hup _ Hd H). intros Hid.
    destruct Hd as [Hd|Hd]; [|done].
    destruct Hel as [-> | ->]; [rewrite HT in Hd; tauto|reflexivity]. }
  destruct (String.eqb_spec el' "TMAX") as [HX|HX].
  { apply (Hup _ Hd H). intros Hid.
    destruct Hd as [Hd|Hd]; [|done].
    destruct Hel as [-> | ->]; [reflexivity|rewrite HX in Hd; tauto]. }
  injection H as <-. exact Hnull.
Qed.

(** The coverage table keeps what it holds: whatever the outcome of the
    import, every row present before is still present, and every non-NULL
    first/last year column keeps its value (the upsert only fills NULL
    columns, through [COALESCE]). *)
Theorem coverage_never_lost stations tbl lines r tbl' :
  import_inventory stations tbl lines = (r, tbl') ->
  forall id c, tbl !! id = Some c ->
  exists c', tbl' !! id = Some c' /\
    (forall v, tmin_first_year c = Some v -> tmin_first_year c' = Some v) /\
    (forall v, tmin_last_year c = Some v -> tmin_last_year c' = Some v) /\
    (forall v, tmax_first_year c = Some v -> tmax_first_year c' = Some v) /\
    (forall v, tmax_last_year c = Some v -> tmax_last_year c' = Some v).
Proof.
  unfold import_inventory. intros H id c Hc.
  destruct (import_lines stations tbl lines) as [t|err] eqn:Hl; injection H as <- <-.
  - by eapply import_lines_keep.
  - exists c. split; [done|]. split_and!; auto.
Qed.

(** First line wins: when the import succeeds, the TMIN (or TMAX) years of a
    station whose columns for that element were NULL before are those of the
    first TMIN (or TMAX) line of that station in the file; later lines of the
    same station and element do not change them. *)
Theorem coverage_first_line_wins stations tbl pre l post tbl' id el f la :
  import_inventory stations tbl (pre ++ l :: post) = (Ok tt, tbl') ->
  (el = "TMIN"%string \/ el = "TMAX"%string) ->
  str_strip (slice 0 11 l) = id -> str_strip (slice 31 35 l) = el ->
  parse_int (str_strip (slice 36 40 l)) = Some f ->
  parse_int (str_strip (slice 41 45 l)) = Some la ->
  (forall l', In l' pre -> str_strip (slice 0 11 l') = id -> str_strip (slice 31 35 l') <> el) ->
  (forall c, tbl !! id = Some c -> element_years el c = (None, None)) ->
  exists c, tbl' !! id = Some c /\ element_years el c = (Some f, Some la).
Proof.
  intros H Hel Hid Helt Hf Hla Hpre Hnull. unfold import_inventory in H.
  rewrite import_lines_app in H.
  destruct (import_lines stations tbl pre) as [t1|err] eqn:H1; [|discriminate].
  cbn [mbind Exc_bind import_lines] in H.
  destruct (import_line stations t1 l) as [t2|err] eqn:H2; [|discriminate].
  cbn [mbind Exc_bind] in H.
  destruct (import_lines stations t2 post) as [t3|err] eqn:H3; [|discriminate].
  injection H as <-.
  (* after [pre], the element's columns of [id] are still NULL *)
  assert (Hn1 : forall c, t1 !! id = Some c -> element_years el c = (None, None)).
  { clear H2 H3. revert tbl H1 Hnull.
    induction pre as [|l' pre IH]; intros tbl H1 Hnull; cbn in H1.
    - injection H1 as <-. exact Hnull.
    - apply bind_Ok in H1 as (t & Ht & H1).
      refine (IH _ t H1 _).
      { intros l0 Hl0. apply Hpre. by right. }
      eapply import_line_other; [exact Hel|exact Ht| |exact Hnull].
      apply Hpre. by left. }
  (* the line itself fills them *)
  assert (Hc2 : exists c, t2 !! id = Some c /\ element_years el c = (Some f, Some la)).
  { unfold import_line in H2. rewrite Hid, Helt in H2. unfold py_int in H2.
    rewrite Hf, Hla in H2. cbn [mbind Exc_bind] in H2.
    unfold upsert_coverage in H2.
    destruct Hel as [-> | ->]; cbn [String.eqb Ascii.eqb Bool.eqb] in H2;
      (destruct (t1 !! id) as [old|] eqn:Hold;
       [injection H2 as <-; rewrite lookup_insert_eq; eexists; split; [reflexivity|];
        specialize (Hn1 old eq_refl); revert Hn1; unfold element_years; cbn;
        intros [= -> ->]; reflexivity
       |destruct (bool_decide (id ∈ stations)); [|discriminate]; injection H2 as <-;
        rewrite lookup_insert_eq; eexists; split; [reflexivity|]; reflexivity]). }
  destruct Hc2 as (c2 & Hc2 & Hy2).
  destruct (import_lines_keep stations t2 post t3 id c2 H3 Hc2) as (c3 & Hc3 & K).
  exists c3. split; [done|].
  destruct K as (A & B & C & D). revert Hy2. unfold element_years.
  destruct (String.eqb el "TMIN"); intros [= Ha Hb]; by rewrite (A _ Ha), (B _ Hb) || rewrite (C _ Ha), (D _ Hb).
Qed.

(** How one line of [inventory.txt] acts once the lines before it went
    through: its year fields are parsed before its element is looked at, so a
    malformed year aborts the whole import with [ValueError] whatever the
    element; a TMIN or TMAX line of a station that is neither in [stations]
    nor in the coverage table aborts it with the foreign-key error; a line of
    any other element whose years parse changes nothing. An aborted import
    leaves the coverage table as it was before the loop. *)
Theorem inventory_line_effects stations tbl pre l post t :
  import_lines stations tbl pre = Ok t ->
  ((parse_int (str_strip (slice 36 40 l)) = None \/
    (exists f, parse_int (str_strip (slice 36 40 l)) = Some f) /\
    parse_int (str_strip (slice 41 45 l)) = None) ->
   import_inventory stations tbl (pre ++ l :: post) = (Raise ValueError, tbl)) /\
  (forall f la, parse_int (str_strip (slice 36 40 l)) = Some f ->
   parse_int (str_strip (slice 41 45 l)) = Some la ->
   (str_strip (slice 31 35 l) = "TMIN"%string \/ str_strip (slice 31 35 l) = "TMAX"%string) ->
   str_strip (slice 0 11 l) ∉ stations -> t !! str_strip (slice 0 11 l) = None ->
   import_inventory stations tbl (pre ++ l :: post) = (Raise DbError, tbl)) /\
  (forall f la, parse_int (str_strip (slice 36 40 l)) = Some f ->
   parse_int (str_strip (slice 41 45 l)) = Some la ->
   str_strip (slice 31 35 l) <> "TMIN"%string -> str_strip (slice 31 35 l) <> "TMAX"%string ->
   import_inventory stations tbl (pre ++ l :: post) = import_inventory stations tbl (pre ++ post)).
Proof.
  intros Hpre. unfold import_inventory. rewrite !import_lines_app, Hpre.
  cbn [mbind Exc_bind import_lines]. unfold import_line. unfold py_int.
  split_and!.
  - intros [Hf|((f & Hf) & Hla)]; rewrite Hf; [reflexivity|]. rewrite Hla. reflexivity.
  - intros f la Hf Hla Hel Hst Hnone. rewrite Hf, Hla. cbn [mbind Exc_bind].
    unfold upsert_coverage. rewrite Hnone.
    rewrite bool_decide_eq_false_2 by exact Hst.
    destruct Hel as [-> | ->]; reflexivity.
  - intros f la Hf Hla Hn1 Hn2. rewrite Hf, Hla. cbn [mbind Exc_bind].
    apply String.eqb_neq in Hn1, Hn2. rewrite Hn1, Hn2. reflexivity.
Qed.

Lemma coverage_never_lost_witness :
  let tbl := {[ "USW00012345"%string := mkCov (Some 1950) (Some 1970) None None ]} in
  let '(r, tbl') :=
    import_inventory {["USW00012345"%string]} tbl
      ["USW00012345  35.0000  -80.0000 TMIN 1990 2000";
       "USW00012345  35.0000  -80.0000 TMAX 1955 2021"]%string in
  exists c', tbl' !! "USW00012345"%string = Some c' /\
    tmin_first_year c' = Some 1950 /\ tmin_last_year c' = Some 1970.
Proof.
  intros tbl.
  destruct (import_inventory {["USW00012345"%string]} tbl
      ["USW00012345  35.0000  -80.0000 TMIN 1990 2000";
       "USW00012345  35.0000  -80.0000 TMAX 1955 2021"]%string) as [r tbl'] eqn:Hx.
  destruct (coverage_never_lost _ _ _ _ _ Hx "USW00012345"%string
              (mkCov (Some 1950) (Some 1970) None None)
              ltac:(apply lookup_singleton_Some; by split))
    as (c' & Hc' & H1 & H2 & _ & _).
  exists c'. split_and!; [exact Hc' | apply H1; reflexivity | apply H2; reflexivity].
Defined.

Lemma coverage_first_line_wins_witness :
  let '(r, tbl') :=
    import_inventory {["USW00012345"%string]} ∅
      ["USW00012345  35.0000  -80.0000 TMAX 1955 2021";
       "USW00012345  35.0000  -80.0000 TMIN 1960 2020";
       "USW00012345  35.0000  -80.0000 TMIN 1990 2000"]%string in
  r = Ok tt /\
  exists c, tbl' !! "USW00012345"%string = Some c /\
    element_years "TMIN" c = (Some 1960, Some 2020).
Proof.
  assert (Hr : (import_inventory {["USW00012345"%string]} ∅
      ["USW00012345  35.0000  -80.0000 TMAX 1955 2021";
       "USW00012345  35.0000  -80.0000 TMIN 1960 2020";
       "USW00012345  35.0000  -80.0000 TMIN 1990 2000"]%string).1 = Ok tt)
    by (vm_compute; reflexivity).
  destruct (import_inventory {["USW00012345"%string]} ∅
      ["USW00012345  35.0000  -80.0000 TMAX 1955 2021";
       "USW00012345  35.0000  -80.0000 TMIN 1960 2020";
       "USW00012345  35.0000  -80.0000 TMIN 1990 2000"]%string) as [r tbl'] eqn:Hx.
  cbn in Hr. subst r. split; [reflexivity|].
  apply (coverage_first_line_wins {["USW00012345"%string]} ∅
           ["USW00012345  35.0000  -80.0000 TMAX 1955 2021"]%string
           "USW00012345  35.0000  -80.0000 TMIN 1960 2020"%string
           ["USW00012345  35.0000  -80.0000 TMIN 1990 2000"]%string
           tbl' "USW00012345" "TMIN" 1960 2020 Hx).
  - left. reflexivity.
  - vm_compute. reflexivity.
  - vm_compute. reflexivity.
  - vm_compute. reflexivity.
  - vm_compute. reflexivity.
  - intros l' [<- | []] _. vm_compute. discriminate.
  - intros c Hc. rewrite lookup_empty in Hc. discriminate.
Defined.

Lemma inventory_line_effects_witness :
  import_inventory {["USW00012345"%string]} ∅
    (["USW00012345  35.0000  -80.0000 TMIN 1960 2020"%string] ++
     "USW00012345  35.0000  -80.0000 PRCP 19x0 2020"%string ::
     ["USW00012345  35.0000  -80.0000 TMAX 1955 2021"%string]) = (Raise ValueError, ∅) /\
  import_inventory {["USW00012345"%string]} ∅
    ([] ++ "USW99999999  35.0000  -80.0000 TMIN 1960 2020"%string ::
     ["USW00012345  35.0000  -80.0000 TMIN 1960 2020"%string]) = (Raise DbError, ∅) /\
  import_inventory {["USW00012345"%string]} ∅
    (["USW00012345  35.0000  -80.0000 TMIN 1960 2020"%string] ++
     "USW00012345  35.0000  -80.0000 PRCP 1900 2020"%string ::
     ["USW00012345  35.0000  -80.0000 TMAX 1955 2021"%string]) =
  import_inventory {["USW00012345"%string]} ∅
    (["USW00012345  35.0000  -80.0000 TMIN 1960 2020"%string] ++
     ["USW00012345  35.0000  -80.0000 TMAX 1955 2021"%string]).
Proof.
  destruct (import_lines {["USW00012345"%string]} ∅
              ["USW00012345  35.0000  -80.0000 TMIN 1960 2020"]%string) as [t|err] eqn:Ht;
    [|vm_compute in Ht; discriminate Ht].
  split_and!.
  - apply (proj1 (inventory_line_effects _ _ _
             "USW00012345  35.0000  -80.0000 PRCP 19x0 2020"%string
             ["USW00012345  35.0000  -80.0000 TMAX 1955 2021"]%string t Ht)).
    left. vm_compute. reflexivity.
  - apply (proj1 (proj2 (inventory_line_effects {["USW00012345"%string]} ∅ []
             "USW99999999  35.0000  -80.0000 TMIN 1960 2020"%string
             ["USW00012345  35.0000  -80.0000 TMIN 1960 2020"]%string ∅ eq_refl))
             1960 2020).
    + vm_compute. reflexivity.
    + vm_compute. reflexivity.
    + left. vm_compute. reflexivity.
    + intros Hin. apply elem_of_singleton in Hin. vm_compute in Hin. discriminate Hin.
    + vm_compute. reflexivity.
  - apply (proj2 (proj2 (inventory_line_effects _ _ _
             "USW00012345  35.0000  -80.0000 PRCP 1900 2020"%string
             ["USW00012345  35.0000  -80.0000 TMAX 1955 2021"]%string t Ht)) 1900 2020).
    + vm_compute. reflexivity.
    + vm_compute. reflexivity.
    + vm_compute. discriminate.
    + vm_compute. discriminate.
Defined.

End InventoryFacts.
